(** * retouches: table formatting service for word-processing documents

    A shallow embedding of [main.py]: the two table mutations
    ([aplicar_bordes_negros_tabla], [eliminar_repeticion_fila_encabezado]),
    the orchestration ([procesar_docx]) and the [/process] handler, with the
    properties the specification states about them.

    The XML tree is the one lxml exposes: an element has a tag (in Clark
    notation), attributes in insertion order, text and an ordered list of
    children.  Python mutates that tree in place; here a mutated child is put
    back at the position where [find] located it. *)

From Stdlib Require Import ZArith Lia Ascii String.
From Stdlib Require Import Init.Byte.
From stdpp Require Import base option list strings countable pretty.

Local Open Scope string_scope.
Local Open Scope list_scope.
Local Open Scope nat_scope.

(** ** Exceptions and results *)

(** A raised Python exception; [str e] is its message text. *)
Inductive Exception : Type :=
  | InvalidXmlError (message : string)
  | AttributeError (message : string)
  | BadZipFile (message : string).

Definition str (e : Exception) : string :=
  match e with
  | InvalidXmlError m | AttributeError m | BadZipFile m => m
  end.

(** A computation that either raises or returns. *)
Definition result (A : Type) : Type := Exception + A.

Definition raise {A} (e : Exception) : result A := inl e.
Definition ret {A} (a : A) : result A := inr a.
Definition bind {A B} (m : result A) (k : A → result B) : result B :=
  match m with
  | inl e => inl e
  | inr a => k a
  end.

Notation "x ← m ;;; k" := (bind m (λ x, k))
  (at level 20, m at level 100, k at level 200, only parsing).
Notation "' p ← m ;;; k" := (bind m (λ x, let 'p := x in k))
  (at level 20, p pattern, m at level 100, k at level 200, only parsing).

(** ** The element tree (lxml) *)

Module Xml.

#[warnings="-register-all"]
Inductive element : Type :=
  Element {
    tag : string;
    attrib : list (string * string);
    text : string;
    children : list element
  }.

Definition with_children (e : element) (cs : list element) : element :=
  {| tag := tag e; attrib := attrib e; text := text e; children := cs |}.

(** [el.set(k, v)]: overwrite the value of an existing key, else add the
    key at the end. *)
Fixpoint assoc_set (k v : string) (l : list (string * string))
  : list (string * string) :=
  match l with
  | [] => [(k, v)]
  | (k', v') :: l' =>
      if decide (k' = k) then (k, v) :: l' else (k', v') :: assoc_set k v l'
  end.

Definition set (k v : string) (e : element) : element :=
  {| tag := tag e; attrib := assoc_set k v (attrib e);
     text := text e; children := children e |}.

(** [parent.find(t)]: the first child with tag [t], with its position,
    which stands for the identity of the child object. *)
Definition find (t : string) (cs : list element) : option (nat * element) :=
  list_find (λ c, tag c = t) cs.

(** [parent.findall(t)]: the children with tag [t], in order. *)
Definition findall (t : string) (cs : list element) : list element :=
  filter (λ c, tag c = t) cs.

(** [parent.append(c)]. *)
Definition append (cs : list element) (c : element) : list element :=
  cs ++ [c].

(** [parent.remove(c)] for the child found at position [i]. *)
Definition remove (i : nat) (cs : list element) : list element :=
  delete i cs.

End Xml.
Export Xml.

(** ** python-docx names *)

Definition w_uri : string :=
  "http://schemas.openxmlformats.org/wordprocessingml/2006/main".

(** [qn('w:x')]: the Clark name of a tag written with the [w] prefix, the
    only prefix this program uses. *)
Definition qn (t : string) : string :=
  match t with
  | String "w"%char (String ":"%char local) => "{" +:+ w_uri +:+ "}" +:+ local
  | _ => t
  end.

(** [OxmlElement('w:x')]: a fresh element without attributes or children. *)
Definition OxmlElement (t : string) : element :=
  {| tag := qn t; attrib := []; text := EmptyString; children := [] |}.

(** ** Border normalisation *)

Definition nombres_bordes : list string :=
  ["top"; "left"; "bottom"; "right"; "insideH"; "insideV"].

(** [_crear_borde(tag)] for the given width and colour. *)
Definition _crear_borde (ancho_octavos_pt : Z) (color_hex : string)
    (t : string) : element :=
  let el := OxmlElement ("w:" +:+ t) in
  let el := set (qn "w:val") "single" el in
  let el := set (qn "w:sz") (pretty ancho_octavos_pt) el in
  let el := set (qn "w:space") "0" el in
  let el := set (qn "w:color") color_hex el in
  el.

(** One turn of the loop over the six names, on the children of
    [tblBorders]: drop the first descriptor of that edge if there is one,
    then append a new one. *)
Definition paso_borde (ancho_octavos_pt : Z) (color_hex : string)
    (hijos : list element) (t : string) : list element :=
  let hijos :=
    match find (qn ("w:" +:+ t)) hijos with
    | Some (i, _) => remove i hijos
    | None => hijos
    end in
  append hijos (_crear_borde ancho_octavos_pt color_hex t).

Definition establecer_bordes (ancho_octavos_pt : Z) (color_hex : string)
    (hijos : list element) : list element :=
  foldl (paso_borde ancho_octavos_pt color_hex) hijos nombres_bordes.

(** [tbl.tblPr] is declared [OneAndOnlyOne] in python-docx: reading it
    raises when the table has no such child. *)
Definition tblPr (tbl : element) : result (nat * element) :=
  match find (qn "w:tblPr") (children tbl) with
  | Some p => ret p
  | None =>
      raise (InvalidXmlError "required ``<w:tblPr>`` child element not present")
  end.

(** The work on the property block [tblPr]: find or create [tblBorders],
    then run the loop over the six names on it. *)
Definition normalizar_tblPr (ancho_octavos_pt : Z) (color_hex : string)
    (pr : element) : element :=
  let '(j, tblBorders, hijos_pr) :=
    match find (qn "w:tblBorders") (children pr) with
    | Some (j, b) => (j, b, children pr)
    | None =>
        let b := OxmlElement "w:tblBorders" in
        (length (children pr), b, append (children pr) b)
    end in
  let tblBorders :=
    with_children tblBorders
      (establecer_bordes ancho_octavos_pt color_hex (children tblBorders)) in
  with_children pr (<[j := tblBorders]> hijos_pr).

Definition aplicar_bordes_negros_tabla_con (ancho_octavos_pt : Z)
    (color_hex : string) (tbl : element) : result element :=
  '(i, pr) ← tblPr tbl ;;;
  let pr := normalizar_tblPr ancho_octavos_pt color_hex pr in
  ret (with_children tbl (<[i := pr]> (children tbl))).

(** The call of the program: default width 8 and colour 000000. *)
Definition aplicar_bordes_negros_tabla : element → result element :=
  aplicar_bordes_negros_tabla_con 8 "000000".

(** ** Header-repeat suppression *)

(** [list(trPr)]: a snapshot of the children, each paired with its position
    in the snapshot, which names the child object in the removals below. *)
Definition enumerar (hijos : list element) : list (nat * element) :=
  zip (seq 0 (length hijos)) hijos.

(** [trPr.remove(child)] for the child object named [k]. *)
Definition quitar (actuales : list (nat * element)) (k : nat)
  : list (nat * element) :=
  filter (λ p, p.1 ≠ k) actuales.

(** The two loops on one [trPr]: collect the children tagged
    [w:tblHeader] from the snapshot, then remove each of them. *)
Definition quitar_tblHeader (hijos : list element) : list element :=
  let a_borrar :=
    filter (λ p, tag p.2 = qn "w:tblHeader") (enumerar hijos) in
  (foldl quitar (enumerar hijos) a_borrar.*1).*2.

(** [tr.trPr] is declared [ZeroOrOne]: the first such child, or [None]. *)
Definition trPr (tr : element) : option (nat * element) :=
  find (qn "w:trPr") (children tr).

(** The body of the loop over the rows, for one row. *)
Definition quitar_marca_fila (tr : element) : element :=
  match trPr tr with
  | None => tr
  | Some (i, pr) =>
      let pr := with_children pr (quitar_tblHeader (children pr)) in
      with_children tr (<[i := pr]> (children tr))
  end.

(** [table.rows]: the [w:tr] children of the table, in order. *)
Definition rows (tbl : element) : list element :=
  findall (qn "w:tr") (children tbl).

(** A child of the table during the loop: a row is mutated, anything else
    is not visited. *)
Definition paso_fila (c : element) : element :=
  if decide (tag c = qn "w:tr") then quitar_marca_fila c else c.

(** Every row is mutated where it stands among the children of the table. *)
Definition eliminar_repeticion_fila_encabezado (tbl : element) : element :=
  with_children tbl (paso_fila <$> children tbl).

(** ** The document *)

(** The parsed document: the root element [w:document] of the main part. *)
Definition Document : Type := element.

(** [doc.tables]: the [w:tbl] children of the body.  The body is declared
    [ZeroOrOne] on the root; without one the attribute access fails. *)
Definition body (doc : Document) : result (nat * element) :=
  match find (qn "w:body") (children doc) with
  | Some p => ret p
  | None =>
      raise (AttributeError "'NoneType' object has no attribute 'tbl_lst'")
  end.

Definition tables (doc : Document) : result (list element) :=
  '(_, b) ← body doc ;;; ret (findall (qn "w:tbl") (children b)).

(** The body of the loop of [procesar_docx] for one table. *)
Definition procesar_tabla (tbl : element) : result element :=
  tbl ← aplicar_bordes_negros_tabla tbl ;;;
  ret (eliminar_repeticion_fila_encabezado tbl).

(** The loop over [doc.tables], in document order, on the children of the
    body: a table is mutated where it stands, every other child is kept. *)
Fixpoint procesar_tablas (hijos : list element) : result (list element) :=
  match hijos with
  | [] => ret []
  | c :: hijos =>
      c ← (if decide (tag c = qn "w:tbl") then procesar_tabla c else ret c) ;;;
      hijos ← procesar_tablas hijos ;;;
      ret (c :: hijos)
  end.

Definition transformar (doc : Document) : result Document :=
  '(i, b) ← body doc ;;;
  hijos ← procesar_tablas (children b) ;;;
  ret (with_children doc (<[i := with_children b hijos]> (children doc))).

(** ** Byte buffers *)

(** An in-memory byte buffer with its position. *)
Record BytesIO : Type := { getvalue : list byte; tell : nat }.

(** [BytesIO(initial)]: positioned at the start. *)
Definition BytesIO_de (inicial : list byte) : BytesIO :=
  {| getvalue := inicial; tell := 0 |}.

(** [b.write(bs)]: overwrite from the position on, growing the buffer. *)
Definition write (bs : list byte) (b : BytesIO) : BytesIO :=
  {| getvalue :=
       take (tell b) (getvalue b) ++ bs
         ++ drop (tell b + length bs) (getvalue b);
     tell := tell b + length bs |}.

(** [b.seek(n)]. *)
Definition seek (n : nat) (b : BytesIO) : BytesIO :=
  {| getvalue := getvalue b; tell := n |}.

(** ** The request and the response (Flask) *)

(** An uploaded file: [f.filename] may be missing, [f.read()] gives the
    content. *)
Record FileStorage : Type := { filename : option string; read : list byte }.

(** What the handler reads of a request, in the order it reads it: the
    entries of [request.files] by field name (the first entry of a name is
    the one indexing returns), and the bytes that
    [request.get_data(cache=False)] returns when it is called after that.
    These are two readings of one stream: for a body with a form content
    type the first reading consumes it, and the second gives no bytes. *)
Record Request : Type := {
  files : list (string * FileStorage);
  get_data : list byte
}.

Definition files_get (k : string) (r : Request) : option FileStorage :=
  (λ p, p.2.2) <$> list_find (λ p, p.1 = k) (files r).

Inductive Response : Type :=
  | jsonify (campos : list (string * string)) (status : nat)
  | send_file (cuerpo : BytesIO) (as_attachment : bool)
      (download_name : string) (mimetype : string).

Definition status_code (r : Response) : nat :=
  match r with
  | jsonify _ st => st
  | send_file _ _ _ _ => 200
  end.

(** [a or b] on strings, with [None] and the empty string false. *)
Definition str_or (a : option string) (b : string) : string :=
  match a with
  | None | Some EmptyString => b
  | Some s => s
  end.

(** [c in s]. *)
Fixpoint contiene (c : ascii) (s : string) : bool :=
  match s with
  | EmptyString => false
  | String a s => if decide (a = c) then true else contiene c s
  end.

(** [s.rsplit(c, 1)]: split once, at the last occurrence of [c]. *)
Fixpoint rsplit1 (c : ascii) (s : string) : list string :=
  match s with
  | EmptyString => [EmptyString]
  | String a s =>
      match rsplit1 c s with
      | [h; t] => [String a h; t]
      | _ => if decide (a = c) then [EmptyString; s] else [String a s]
      end
  end.

Definition mimetype_docx : string :=
  "application/vnd.openxmlformats-officedocument.wordprocessingml.document".

Definition nombre_salida (filename_in : string) : string :=
  let base :=
    if contiene "." filename_in
    then default EmptyString (head (rsplit1 "." filename_in))
    else filename_in in
  base +:+ "_procesado.docx".

Section Contenedor.

(** The document container is opaque to the program: [Document(stream)]
    and [doc.save(stream)] of python-docx.  [save] stands for the bytes of
    one writing; the archive also records the time of writing, so that the
    statements which compare two runs are about the documents the bytes
    parse to. *)
Variable load : list byte → result Document.
Variable save : Document → list byte.

Definition procesar_docx (stream_entrada : BytesIO) : result BytesIO :=
  doc ← load (getvalue stream_entrada) ;;;
  doc ← transformar doc ;;;
  let salida := BytesIO_de [] in
  let salida := write (save doc) salida in
  let salida := seek 0 salida in
  ret salida.

(** The part of the handler after the input was read.  The response is
    the value [send_file] is called with; what Flask makes of it on the
    wire (its checks of header values, conditional and range answers) is
    outside the model. *)
Definition responder (filename_in : string) (in_bytes : list byte)
  : result Response :=
  let entrada := BytesIO_de in_bytes in
  salida ← procesar_docx entrada ;;;
  let filename_out := nombre_salida filename_in in
  ret (send_file salida true filename_out mimetype_docx).

(** The [try] block of [process]. *)
Definition process_try (request : Request) : result Response :=
  let filename_in := "input.docx" in
  match files_get "file" request with
  | Some f =>
      let filename_in := str_or (filename f) filename_in in
      let in_bytes := read f in
      responder filename_in in_bytes
  | None =>
      let in_bytes := get_data request in
      match in_bytes with
      | [] => ret (jsonify [("error", "No se recibió archivo")] 400)
      | _ => responder filename_in in_bytes
      end
  end.

(** [process]: any exception of the block becomes a 500 response. *)
Definition process (request : Request) : Response :=
  match process_try request with
  | inr r => r
  | inl e => jsonify [("error", str e)] 500
  end.

End Contenedor.

(** ** A concrete container

    python-docx keeps the container format to itself.  To run the program
    on actual bytes the development needs one container that can be
    written and read back: the signature [PK] of a zip archive followed by
    one byte per binary digit of a numbering of the element trees. *)

Module Zip.

#[global] Instance element_eq_dec : EqDecision element.
Proof.
  refine (
    fix go (x y : element) {struct x} : Decision (x = y) :=
      let _ : EqDecision element := @go in
      match x, y with
      | Element t1 a1 x1 cs1, Element t2 a2 x2 cs2 =>
          cast_if_and4 (decide (t1 = t2)) (decide (a1 = a2))
            (decide (x1 = x2)) (decide (cs1 = cs2))
      end); abstract congruence.
Defined.

Definition hoja : Type := string * list (string * string) * string.

Fixpoint a_arbol (e : element) : gen_tree hoja :=
  GenNode 0 (GenLeaf (tag e, attrib e, text e) :: (a_arbol <$> children e)).

Fixpoint de_arbol (t : gen_tree hoja) : option element :=
  match t with
  | GenNode 0 (GenLeaf (t, a, x) :: ts) =>
      cs ← mapM de_arbol ts; Some (Element t a x cs)
  | _ => None
  end.

Lemma de_a_arbol (e : element) : de_arbol (a_arbol e) = Some e.
Proof.
  revert e.
  refine (fix go (e : element) {struct e} := _).
  destruct e as [t a x cs]; simpl.
  assert (Hcs : mapM de_arbol (a_arbol <$> cs) = Some cs).
  { induction cs as [|c cs IH]; simpl; [done|].
    rewrite (go c). simpl. change (list_fmap _ _ a_arbol cs) with (a_arbol <$> cs).
    rewrite IH. done. }
  rewrite Hcs. done.
Qed.

#[global] Instance element_countable : Countable element :=
  inj_countable a_arbol de_arbol de_a_arbol.

Fixpoint digitos (p : positive) : list byte :=
  match p with
  | xH => []
  | xO p => x00 :: digitos p
  | xI p => x01 :: digitos p
  end.

Fixpoint de_digitos (bs : list byte) : option positive :=
  match bs with
  | [] => Some xH
  | x00 :: bs => xO <$> de_digitos bs
  | x01 :: bs => xI <$> de_digitos bs
  | _ => None
  end.

Lemma de_digitos_digitos (p : positive) : de_digitos (digitos p) = Some p.
Proof. induction p as [p IH|p IH|]; simpl; rewrite ?IH; done. Qed.

Definition save (doc : Document) : list byte :=
  x50 :: x4b :: digitos (encode doc).

Definition load (bs : list byte) : result Document :=
  match bs with
  | x50 :: x4b :: bs =>
      match de_digitos bs ≫= decode with
      | Some doc => ret doc
      | None => raise (BadZipFile "Bad magic number for central directory")
      end
  | _ => raise (BadZipFile "File is not a zip file")
  end.

Lemma load_save (doc : Document) : load (save doc) = inr doc.
Proof.
  unfold load, save. rewrite de_digitos_digitos. simpl.
  rewrite decode_encode. done.
Qed.

Lemma load_vacio : load [] = inl (BadZipFile "File is not a zip file").
Proof. reflexivity. Qed.

End Zip.

(** ** What the specification talks about *)

(** The tag of the descriptor of a named edge. *)
Definition etiqueta_borde (t : string) : string := qn ("w:" +:+ t).

(** The descriptor the specification fixes for an edge: style single,
    width 8 eighths of a point, spacing 0, colour 000000. *)
Definition borde_negro (t : string) : element :=
  {| tag := etiqueta_borde t;
     attrib := [(qn "w:val", "single"); (qn "w:sz", "8");
                (qn "w:space", "0"); (qn "w:color", "000000")];
     text := EmptyString;
     children := [] |}.

Definition es_borde_nombrado (c : element) : Prop :=
  tag c ∈ etiqueta_borde <$> nombres_bordes.

#[global] Instance es_borde_nombrado_dec c : Decision (es_borde_nombrado c).
Proof. unfold es_borde_nombrado. apply _. Defined.

(** The children of the border sub-block of a property block, none when
    the sub-block is absent. *)
Definition bordes_previos (pr : element) : list element :=
  match find (qn "w:tblBorders") (children pr) with
  | Some (_, b) => children b
  | None => []
  end.

(** The border descriptors of the named edges in the property block of a
    table. *)
Definition descriptores (tbl : element) : list element :=
  match find (qn "w:tblPr") (children tbl) with
  | Some (_, pr) => filter es_borde_nombrado (bordes_previos pr)
  | None => []
  end.

(** No named edge has more than one descriptor. *)
Definition sin_repetidos (hijos : list element) : Prop :=
  ∀ t, t ∈ nombres_bordes → length (findall (etiqueta_borde t) hijos) ≤ 1.

(** The border sub-block of the table, if it has one, repeats no named
    edge. *)
Definition tabla_sin_repetidos (tbl : element) : Prop :=
  ∀ i pr, find (qn "w:tblPr") (children tbl) = Some (i, pr) →
          sin_repetidos (bordes_previos pr).

(** The children of the border sub-block of the property block of a table,
    none when either block is absent. *)
Definition bordes_tabla (tbl : element) : list element :=
  match find (qn "w:tblPr") (children tbl) with
  | Some (_, pr) => bordes_previos pr
  | None => []
  end.

(** The children without the first one tagged [t]. *)
Definition sin_primero (t : string) (cs : list element) : list element :=
  match find t cs with
  | Some (i, _) => remove i cs
  | None => cs
  end.

(** The children after the first descriptor of each of the edges [ns] was
    taken out, one edge after the other. *)
Definition sin_primeros (ns : list string) (cs : list element)
  : list element :=
  foldl (λ cs t, sin_primero (etiqueta_borde t) cs) cs ns.


(** [doc.iter()]: the element and all its descendants, in document
    order. *)
Fixpoint iter (e : element) : list element :=
  match e with
  | Element _ _ _ cs =>
      e :: (fix go (cs : list element) : list element :=
              match cs with
              | [] => []
              | c :: cs => iter c ++ go cs
              end) cs
  end.

(** Every table of the document, at any depth: the ones of the body and
    the ones inside cells. *)
Definition todas_las_tablas (doc : Document) : list element :=
  findall (qn "w:tbl") (iter doc).

(** The frame of the transform, level by level.  Two elements have the
    same header when tag, attributes and text agree. *)
Definition misma_cabecera (c c' : element) : Prop :=
  tag c' = tag c ∧ attrib c' = attrib c ∧ text c' = text c.

(** Children compared position by position: a child tagged [t] is related
    by [R], any other child is the same on both sides. *)
Definition hijos_salvo (t : string) (R : element → element → Prop)
    (cs cs' : list element) : Prop :=
  Forall2 (λ c c', if decide (tag c = t) then R c c' else c' = c) cs cs'.

(** Row property blocks agree on all but header flags. *)
Definition marco_trPr (pr pr' : element) : Prop :=
  misma_cabecera pr pr'
  ∧ filter (λ c, tag c ≠ qn "w:tblHeader") (children pr')
    = filter (λ c, tag c ≠ qn "w:tblHeader") (children pr).

(** Rows agree on all but their property blocks: the cells are the same. *)
Definition marco_tr (tr tr' : element) : Prop :=
  misma_cabecera tr tr'
  ∧ hijos_salvo (qn "w:trPr") marco_trPr (children tr) (children tr').

(** Table property blocks agree on all but the border sub-block. *)
Definition marco_tblPr (pr pr' : element) : Prop :=
  misma_cabecera pr pr'
  ∧ filter (λ c, tag c ≠ qn "w:tblBorders") (children pr')
    = filter (λ c, tag c ≠ qn "w:tblBorders") (children pr).

Definition marco_hijo_tbl (c c' : element) : Prop :=
  if decide (tag c = qn "w:tblPr") then marco_tblPr c c'
  else if decide (tag c = qn "w:tr") then marco_tr c c'
  else c' = c.

Definition marco_tbl (tbl tbl' : element) : Prop :=
  misma_cabecera tbl tbl'
  ∧ Forall2 marco_hijo_tbl (children tbl) (children tbl').

(** Bodies agree on every child that is not a table. *)
Definition marco_body (b b' : element) : Prop :=
  misma_cabecera b b'
  ∧ hijos_salvo (qn "w:tbl") marco_tbl (children b) (children b').

(** Documents agree on everything outside the body. *)
Definition marco_documento (doc doc' : Document) : Prop :=
  misma_cabecera doc doc'
  ∧ hijos_salvo (qn "w:body") marco_body (children doc) (children doc').

(** The file name the handler works with: the one of the uploaded file
    when it has one, else the default. *)
Definition nombre_entrada (request : Request) : string :=
  match files_get "file" request with
  | Some f => str_or (filename f) "input.docx"
  | None => "input.docx"
  end.

(** The bytes the handler hands to the document processor, if any. *)
Definition bytes_entrada (request : Request) : option (list byte) :=
  match files_get "file" request with
  | Some f => Some (read f)
  | None => match get_data request with [] => None | bs => Some bs end
  end.

(** ** Sample documents *)

Module Ejemplos.

Definition el (t : string) (cs : list element) : element :=
  {| tag := qn t; attrib := []; text := EmptyString; children := cs |}.

Definition parrafo (s : string) : element :=
  el "w:p"
    [el "w:r"
       [{| tag := qn "w:t"; attrib := []; text := s; children := [] |}]].

Definition celda (s : string) : element := el "w:tc" [parrafo s].

Definition marca : element :=
  {| tag := qn "w:tblHeader"; attrib := []; text := EmptyString;
     children := [] |}.

(** A flagged row, a row whose property block holds no flag, a row without
    property block. *)
Definition fila_marcada : element :=
  el "w:tr" [el "w:trPr" [el "w:cantSplit" []; marca]; celda "a"; celda "b"].
Definition fila_sin_marca : element :=
  el "w:tr" [el "w:trPr" [el "w:cantSplit" []]; celda "c"; celda "d"].
Definition fila_sin_trPr : element :=
  el "w:tr" [celda "e"; celda "f"].

(** The scenario of the specification: one table of three rows, the first
    flagged, no borders set. *)
Definition tabla : element :=
  el "w:tbl"
    [el "w:tblPr" [el "w:tblW" []]; el "w:tblGrid" [];
     fila_marcada; fila_sin_marca; fila_sin_trPr].

Definition documento : Document :=
  el "w:document"
    [el "w:body" [parrafo "antes"; tabla; parrafo "despues"; el "w:sectPr" []]].

Definition documento_sin_tablas : Document :=
  el "w:document" [el "w:body" [parrafo "solo texto"; el "w:sectPr" []]].

Definition borde (t v : string) : element :=
  {| tag := etiqueta_borde t; attrib := [(qn "w:val", v)];
     text := EmptyString; children := [] |}.

(** A table whose border sub-block holds two descriptors of the top edge. *)
Definition tabla_repetida : element :=
  el "w:tbl"
    [el "w:tblPr"
       [el "w:tblBorders" [borde "top" "double"; borde "top" "dashed"]];
     fila_marcada].

Definition documento_repetido : Document :=
  el "w:document" [el "w:body" [tabla_repetida]].

(** The same documents as the program is expected to leave them. *)
Definition fila_desmarcada : element :=
  el "w:tr" [el "w:trPr" [el "w:cantSplit" []]; celda "a"; celda "b"].

Definition tabla_procesada : element :=
  el "w:tbl"
    [el "w:tblPr"
       [el "w:tblW" []; el "w:tblBorders" (borde_negro <$> nombres_bordes)];
     el "w:tblGrid" [];
     fila_desmarcada; fila_sin_marca; fila_sin_trPr].

Definition documento_procesado : Document :=
  el "w:document"
    [el "w:body"
       [parrafo "antes"; tabla_procesada; parrafo "despues";
        el "w:sectPr" []]].

(** The table with the repeated descriptor after one and after two runs. *)
Definition tabla_repetida_1 : element :=
  el "w:tbl"
    [el "w:tblPr"
       [el "w:tblBorders"
          (borde "top" "dashed" :: (borde_negro <$> nombres_bordes))];
     fila_desmarcada].

Definition tabla_repetida_2 : element :=
  el "w:tbl"
    [el "w:tblPr"
       [el "w:tblBorders"
          (borde_negro "top" :: (borde_negro <$> nombres_bordes))];
     fila_desmarcada].

Definition documento_repetido_1 : Document :=
  el "w:document" [el "w:body" [tabla_repetida_1]].

Definition documento_repetido_2 : Document :=
  el "w:document" [el "w:body" [tabla_repetida_2]].

(** The sample document with the text of its first paragraph changed. *)
Definition documento_otro_texto : Document :=
  el "w:document"
    [el "w:body"
       [parrafo "otro"; tabla_procesada; parrafo "despues";
        el "w:sectPr" []]].

(** The table with the repeated descriptor after border normalisation
    alone: the row keeps its flag. *)
Definition tabla_repetida_bordes : element :=
  el "w:tbl"
    [el "w:tblPr"
       [el "w:tblBorders"
          (borde "top" "dashed" :: (borde_negro <$> nombres_bordes))];
     fila_marcada].

(** The sample table after border normalisation alone. *)
Definition tabla_bordes : element :=
  el "w:tbl"
    [el "w:tblPr"
       [el "w:tblW" []; el "w:tblBorders" (borde_negro <$> nombres_bordes)];
     el "w:tblGrid" [];
     fila_marcada; fila_sin_marca; fila_sin_trPr].

(** A table whose border sub-block also holds the logical edges start and
    end, which are not among the six names, before and after border
    normalisation. *)
Definition tabla_con_start : element :=
  el "w:tbl"
    [el "w:tblPr"
       [el "w:tblBorders"
          [el "w:start" []; borde "top" "double"; el "w:end" []]]].

Definition tabla_con_start_bordes : element :=
  el "w:tbl"
    [el "w:tblPr"
       [el "w:tblBorders"
          (el "w:start" [] :: el "w:end" []
             :: (borde_negro <$> nombres_bordes))]].

Definition documento_con_start : Document :=
  el "w:document" [el "w:body" [parrafo "antes"; tabla_con_start]].

Definition documento_con_start_procesado : Document :=
  el "w:document" [el "w:body" [parrafo "antes"; tabla_con_start_bordes]].

(** A table inside a cell of a table of the body: python-docx does not
    list it in [doc.tables]. *)
Definition celda_con_tabla : element :=
  el "w:tc" [el "w:tbl" [el "w:tblPr" []; fila_marcada]].

Definition documento_anidado : Document :=
  el "w:document"
    [el "w:body" [el "w:tbl" [el "w:tblPr" []; el "w:tr" [celda_con_tabla]]]].

Definition documento_anidado_procesado : Document :=
  el "w:document"
    [el "w:body"
       [el "w:tbl"
          [el "w:tblPr" [el "w:tblBorders" (borde_negro <$> nombres_bordes)];
           el "w:tr" [celda_con_tabla]]]].

(** The inner table of [documento_anidado], as it is and as the body of
    the loop would leave it; the outer table after the loop. *)
Definition tabla_interior : element :=
  el "w:tbl" [el "w:tblPr" []; fila_marcada].

Definition tabla_interior_procesada : element :=
  el "w:tbl"
    [el "w:tblPr" [el "w:tblBorders" (borde_negro <$> nombres_bordes)];
     fila_desmarcada].

Definition tabla_exterior_procesada : element :=
  el "w:tbl"
    [el "w:tblPr" [el "w:tblBorders" (borde_negro <$> nombres_bordes)];
     el "w:tr" [celda_con_tabla]].

(** A document without body: the schema allows it, and it has no table. *)
Definition documento_sin_body : Document := el "w:document" [].

(** A table without property block. *)
Definition documento_sin_tblPr : Document :=
  el "w:document" [el "w:body" [el "w:tbl" [fila_marcada]]].

(** Requests: an upload with a name, a raw body, nothing at all, an empty
    upload, bytes that are no container, an upload without a name. *)
Definition peticion_archivo : Request :=
  {| files := [("file", {| filename := Some "informe.v2.docx";
                           read := Zip.save documento |})];
     get_data := [] |}.

Definition peticion_cruda : Request :=
  {| files := []; get_data := Zip.save documento |}.

Definition peticion_vacia : Request := {| files := []; get_data := [] |}.

Definition peticion_archivo_vacio : Request :=
  {| files := [("file", {| filename := Some "vacio.docx"; read := [] |})];
     get_data := [] |}.

Definition peticion_basura : Request :=
  {| files := []; get_data := [x00; x01; x02] |}.

Definition peticion_sin_nombre : Request :=
  {| files := [("file", {| filename := Some EmptyString;
                           read := Zip.save documento |})];
     get_data := [] |}.

End Ejemplos.

(** * Properties *)

Arguments qn : simpl never.

(** Two tags of the program written out differ. *)
Ltac tags_distintos :=
  let H := fresh in
  try (intros H; vm_compute in H; discriminate H);
  try (vm_compute; congruence).

(** ** The element functions *)

Section Elementos.

Implicit Types (c : element) (cs : list element) (t : string).

Lemma with_children_id c : with_children c (children c) = c.
Proof. by destruct c. Qed.

Lemma find_Some t cs i c :
  find t cs = Some (i, c) →
  cs !! i = Some c ∧ tag c = t ∧ ∀ j y, cs !! j = Some y → j < i → tag y ≠ t.
Proof. unfold find. by rewrite list_find_Some. Qed.

Lemma find_None t cs : find t cs = None → findall t cs = [].
Proof.
  unfold find, findall. rewrite list_find_None.
  induction 1 as [|c cs Hc _ IH]; [done|].
  by rewrite filter_cons_False.
Qed.

(** A child put back where it was found, with its tag, is found again. *)
Lemma find_insert t cs i c c' :
  find t cs = Some (i, c) → tag c' = t →
  find t (<[i:=c']> cs) = Some (i, c').
Proof.
  unfold find. intros Hf Ht. apply list_find_insert_Some. right; left.
  apply list_find_Some in Hf as (Hi & _ & Hmin).
  split_and!; eauto using lookup_lt_Some.
Qed.


Lemma find_insert_ne t cs i c c' :
  cs !! i = Some c → tag c ≠ t → tag c' ≠ t →
  find t (<[i:=c']> cs) = find t cs.
Proof.
  unfold find. revert i. induction cs as [|x cs IH]; intros [|i] Hi ??;
    simplify_eq/=; [|].
  - by rewrite !decide_False.
  - by erewrite IH.
Qed.


Lemma find_fmap_ne t (f : element → element) cs :
  (∀ c, tag (f c) = tag c) → (∀ c, tag c = t → f c = c) →
  find t (f <$> cs) = find t cs.
Proof.
  intros Hf Hid. unfold find. induction cs as [|c cs IH]; [done|].
  csimpl. rewrite Hf, IH. case_decide; [|done]. by rewrite Hid.
Qed.

End Elementos.

(** ** Removal of the header flags of one [trPr] *)

Section Quitar.

Lemma foldl_quitar (ks : list nat) (l : list (nat * element)) :
  foldl quitar l ks = filter (λ p, p.1 ∉ ks) l.
Proof.
  revert l. induction ks as [|k ks IH]; intros l; simpl.
  - induction l as [|p l IHl]; [done|].
    rewrite filter_cons_True, <- IHl; [done|]. apply not_elem_of_nil.
  - rewrite IH. unfold quitar. rewrite list_filter_filter.
    apply list_filter_iff. intros p. rewrite not_elem_of_cons. tauto.
Qed.

Lemma filter_zip_snd (R : element → Prop) `{!∀ c, Decision (R c)}
    (s : list nat) (l : list element) :
  length s = length l →
  (filter (λ p : nat * element, R p.2) (zip s l)).*2 = filter R l.
Proof.
  revert s. induction l as [|c l IH]; intros [|n s] Hlen; simplify_eq/=;
    [done|].
  rewrite !filter_cons. simpl. case_decide; simpl; by rewrite IH.
Qed.

Lemma filter_ext_elem {A} (P Q : A → Prop) `{!∀ x, Decision (P x)}
    `{!∀ x, Decision (Q x)} (l : list A) :
  (∀ x, x ∈ l → P x ↔ Q x) → filter P l = filter Q l.
Proof.
  induction l as [|x l IH]; intros HPQ; [done|].
  rewrite !filter_cons.
  rewrite IH by (intros y Hy; apply HPQ; by right).
  apply decide_ext. apply HPQ. by left.
Qed.

Lemma NoDup_fst_eq {A} (l : list (nat * A)) p q :
  NoDup l.*1 → p ∈ l → q ∈ l → p.1 = q.1 → p = q.
Proof.
  induction l as [|x l IH]; simpl; intros Hnd Hp Hq Heq.
  - by apply elem_of_nil in Hp.
  - apply NoDup_cons in Hnd as [Hx Hnd].
    apply elem_of_cons in Hp as [->|Hp]; apply elem_of_cons in Hq as [->|Hq];
      [done| | |by apply IH].
    + destruct Hx. rewrite Heq. by apply list_elem_of_fmap_2.
    + destruct Hx. rewrite <- Heq. by apply list_elem_of_fmap_2.
Qed.

(** The collect-then-remove loops leave exactly the children that are not
    header flags, in their order. *)
Lemma quitar_tblHeader_filter (hijos : list element) :
  quitar_tblHeader hijos = filter (λ c, tag c ≠ qn "w:tblHeader") hijos.
Proof.
  unfold quitar_tblHeader. rewrite foldl_quitar.
  assert (Hlen : length (seq 0 (length hijos)) = length hijos)
    by apply length_seq.
  assert (Hnd : NoDup (enumerar hijos).*1).
  { unfold enumerar. rewrite fst_zip by lia. apply NoDup_seq. }
  rewrite <- (filter_zip_snd (λ c, tag c ≠ qn "w:tblHeader") _ _ Hlen).
  f_equal. apply filter_ext_elem. intros p Hp. split.
  - intros Hnot Htag. apply Hnot.
    apply (list_elem_of_fmap_2 fst _ p). apply list_elem_of_filter. done.
  - intros Htag (q & Hq1 & Hq)%list_elem_of_fmap.
    apply list_elem_of_filter in Hq as [Hq2 Hq].
    assert (p = q) as -> by eauto using NoDup_fst_eq. done.
Qed.

End Quitar.

(** ** Border normalisation *)

Section Bordes.

Lemma crear_borde_negro t : _crear_borde 8 "000000" t = borde_negro t.
Proof. reflexivity. Qed.

Lemma etiqueta_borde_inj : Inj (=) (=) etiqueta_borde.
Proof.
  intros t1 t2 H. unfold etiqueta_borde, qn in H. simpl in H.
  by simplify_eq.
Qed.

Lemma findall_nil_filter t (cs : list element) :
  findall t cs = [] → filter (λ c, tag c ≠ t) cs = cs.
Proof.
  unfold findall. induction cs as [|c cs IH]; [done|].
  rewrite !filter_cons. repeat case_decide; try done.
  intros. by rewrite IH.
Qed.

(** With at most one descriptor of an edge, removing the first one removes
    them all. *)
Lemma quitar_primero_unico t (cs : list element) :
  length (findall t cs) ≤ 1 →
  match find t cs with
  | Some (i, _) => remove i cs
  | None => cs
  end = filter (λ c, tag c ≠ t) cs.
Proof.
  unfold find, findall, remove.
  induction cs as [|c cs IH]; [done|].
  rewrite !filter_cons; csimpl. repeat case_decide; try done; simpl.
  - intros Hlen. symmetry. apply findall_nil_filter.
    unfold findall. apply nil_length_inv. lia.
  - intros Hlen. specialize (IH Hlen).
    destruct (list_find _ cs) as [[i y]|]; simpl in *; by f_equal.
Qed.

Lemma paso_borde_unico ancho color (hijos : list element) t :
  length (findall (etiqueta_borde t) hijos) ≤ 1 →
  paso_borde ancho color hijos t
  = filter (λ c, tag c ≠ etiqueta_borde t) hijos ++ [_crear_borde ancho color t].
Proof.
  intros Hlen. unfold paso_borde, append.
  fold (etiqueta_borde t). by rewrite <- quitar_primero_unico.
Qed.

Lemma tag_crear_borde ancho color t :
  tag (_crear_borde ancho color t) = etiqueta_borde t.
Proof. reflexivity. Qed.

Lemma foldl_paso_borde ancho color (ns : list string) (hijos : list element) :
  NoDup ns →
  (∀ t, t ∈ ns → length (findall (etiqueta_borde t) hijos) ≤ 1) →
  foldl (paso_borde ancho color) hijos ns
  = filter (λ c, tag c ∉ etiqueta_borde <$> ns) hijos
      ++ (_crear_borde ancho color <$> ns).
Proof.
  revert hijos. induction ns as [|t ns IH]; intros hijos Hnd Huno; simpl.
  - rewrite app_nil_r. symmetry.
    induction hijos as [|c cs IHc]; [done|].
    rewrite filter_cons_True by apply not_elem_of_nil. f_equal. apply IHc.
    intros ? []%elem_of_nil.
  - apply NoDup_cons in Hnd as [Ht Hnd].
    rewrite paso_borde_unico by (apply Huno; by left).
    rewrite IH; [|done|].
    + rewrite filter_app, list_filter_filter, <- app_assoc. f_equal.
      * apply list_filter_iff. intros c. rewrite not_elem_of_cons. tauto.
      * rewrite filter_cons_True; [done|].
        rewrite tag_crear_borde. intros (t' & Heq & Hin)%list_elem_of_fmap.
        apply etiqueta_borde_inj in Heq as ->. done.
    + intros t' Ht'. unfold findall. rewrite filter_app, length_app.
      rewrite filter_cons_False; [simpl|].
      * rewrite list_filter_filter.
        etrans; [|apply (Huno t'); by right].
        rewrite Nat.add_0_r. unfold findall.
        rewrite (list_filter_iff _ (λ c, tag c = etiqueta_borde t')); [done|].
        intros c. split; [tauto|]. intros Hc. split; [done|].
        rewrite Hc. intros Heq%etiqueta_borde_inj. by subst.
      * rewrite tag_crear_borde. intros Heq%etiqueta_borde_inj. by subst.
Qed.

Lemma NoDup_nombres_bordes : NoDup nombres_bordes.
Proof. apply (bool_decide_unpack _). by vm_compute. Qed.

(** On children without repeated descriptors the loop leaves what is not a
    descriptor of a named edge, followed by the six fixed descriptors. *)
Lemma establecer_bordes_sin_repetidos (hijos : list element) :
  sin_repetidos hijos →
  establecer_bordes 8 "000000" hijos
  = filter (λ c, ¬ es_borde_nombrado c) hijos ++ (borde_negro <$> nombres_bordes).
Proof.
  intros Huno. unfold establecer_bordes.
  rewrite foldl_paso_borde by (done || apply NoDup_nombres_bordes).
  done.
Qed.

End Bordes.

(** ** The table functions *)

Section Tablas.

Implicit Types (tbl pr tr c : element).

Lemma filter_insert_fuera (P : element → Prop) `{!∀ c, Decision (P c)}
    (cs : list element) i c c' :
  cs !! i = Some c → ¬ P c → ¬ P c' → filter P (<[i:=c']> cs) = filter P cs.
Proof.
  revert i. induction cs as [|x cs IH]; intros [|i] Hi ??; simplify_eq/=; [|].
  - by rewrite !filter_cons_False.
  - rewrite !filter_cons. by erewrite IH.
Qed.

Lemma insert_append (cs : list element) c c' :
  <[length cs:=c']> (append cs c) = append cs c'.
Proof.
  unfold append. rewrite insert_app_r_alt by lia.
  by rewrite Nat.sub_diag.
Qed.

Lemma find_append_nuevo t (cs : list element) c :
  find t cs = None → tag c = t → find t (append cs c) = Some (length cs, c).
Proof.
  unfold find, append. intros Hn Ht. rewrite list_find_app_r by done.
  simpl. by rewrite decide_True.
Qed.

Lemma normalizar_tblPr_tag ancho color pr :
  tag (normalizar_tblPr ancho color pr) = tag pr.
Proof. unfold normalizar_tblPr. by destruct (find _ _) as [[??]|]. Qed.

Lemma normalizar_tblPr_attrib ancho color pr :
  attrib (normalizar_tblPr ancho color pr) = attrib pr.
Proof. unfold normalizar_tblPr. by destruct (find _ _) as [[??]|]. Qed.

Lemma normalizar_tblPr_text ancho color pr :
  text (normalizar_tblPr ancho color pr) = text pr.
Proof. unfold normalizar_tblPr. by destruct (find _ _) as [[??]|]. Qed.

(** After the step the border sub-block holds the result of the loop run
    on what it held before. *)
Lemma bordes_previos_normalizar ancho color pr :
  bordes_previos (normalizar_tblPr ancho color pr)
  = establecer_bordes ancho color (bordes_previos pr).
Proof.
  unfold bordes_previos, normalizar_tblPr.
  destruct (find _ (children pr)) as [[j b]|] eqn:Hf; simpl.
  - erewrite find_insert; [done..|].
    simpl. by apply find_Some in Hf as (_ & ? & _).
  - rewrite insert_append. by rewrite find_append_nuevo.
Qed.

(** The step changes nothing of the property block but its border
    sub-block. *)
Lemma otros_normalizar ancho color pr :
  filter (λ c, tag c ≠ qn "w:tblBorders")
    (children (normalizar_tblPr ancho color pr))
  = filter (λ c, tag c ≠ qn "w:tblBorders") (children pr).
Proof.
  unfold normalizar_tblPr.
  destruct (find _ (children pr)) as [[j b]|] eqn:Hf; simpl.
  - apply find_Some in Hf as (Hj & Hb & _).
    eapply filter_insert_fuera; [done|simpl; tauto..].
  - rewrite insert_append. unfold append. rewrite filter_app.
    rewrite filter_cons_False by (simpl; tauto). by rewrite app_nil_r.
Qed.

Lemma aplicar_inr ancho color tbl tbl' :
  aplicar_bordes_negros_tabla_con ancho color tbl = inr tbl' ↔
  ∃ i pr, find (qn "w:tblPr") (children tbl) = Some (i, pr)
    ∧ tbl' = with_children tbl
               (<[i:=normalizar_tblPr ancho color pr]> (children tbl)).
Proof.
  unfold aplicar_bordes_negros_tabla_con, tblPr.
  destruct (find _ _) as [[i pr]|]; simpl; split.
  - intros [= <-]. eauto.
  - intros (? & ? & [= <- <-] & ->). done.
  - done.
  - intros (? & ? & ? & _). done.
Qed.



Lemma quitar_marca_fila_tag tr : tag (quitar_marca_fila tr) = tag tr.
Proof. unfold quitar_marca_fila. by destruct (trPr tr) as [[??]|]. Qed.

Lemma paso_fila_tag c : tag (paso_fila c) = tag c.
Proof. unfold paso_fila. case_decide; [apply quitar_marca_fila_tag|done]. Qed.


(** Suppression leaves the property block of the table alone. *)
Lemma find_tblPr_eliminar tbl :
  find (qn "w:tblPr") (children (eliminar_repeticion_fila_encabezado tbl))
  = find (qn "w:tblPr") (children tbl).
Proof.
  unfold eliminar_repeticion_fila_encabezado; simpl.
  apply find_fmap_ne; [apply paso_fila_tag|].
  intros c Hc. unfold paso_fila. rewrite decide_False; [done|].
  rewrite Hc. tags_distintos.
Qed.


Lemma procesar_tabla_inr tbl tbl' :
  procesar_tabla tbl = inr tbl' ↔
  ∃ tbl1, aplicar_bordes_negros_tabla tbl = inr tbl1
    ∧ tbl' = eliminar_repeticion_fila_encabezado tbl1.
Proof.
  unfold procesar_tabla.
  destruct (aplicar_bordes_negros_tabla tbl) as [e|tbl1]; simpl; split.
  - done.
  - intros (? & ? & _). done.
  - intros [= <-]. eauto.
  - intros (? & [= <-] & ->). done.
Qed.

Lemma procesar_tabla_tag tbl tbl' :
  procesar_tabla tbl = inr tbl' → tag tbl' = tag tbl.
Proof.
  intros (tbl1 & (i & pr & _ & ->)%aplicar_inr & ->)%procesar_tabla_inr.
  done.
Qed.

End Tablas.

(** ** The document loop *)

Section Documento.

Lemma procesar_tablas_inr (hijos hijos' : list element) :
  procesar_tablas hijos = inr hijos' ↔
  Forall2 (λ c c', if decide (tag c = qn "w:tbl")
                   then procesar_tabla c = inr c' else c' = c) hijos hijos'.
Proof.
  revert hijos'. induction hijos as [|c hijos IH]; intros hijos'; simpl.
  - split; [intros [= <-]; constructor|]. by intros ->%Forall2_nil_inv_l.
  - split.
    + intros H.
      destruct (if decide _ then _ else _) as [e|c'] eqn:Hc; [done|].
      simpl in H.
      destruct (procesar_tablas hijos) as [e|hs] eqn:Hh; [done|].
      simpl in H. injection H as <-. constructor; [|by apply IH].
      case_decide; [done|]. by injection Hc.
    + intros (c' & hs & Hc & Hhs & ->)%Forall2_cons_inv_l.
      apply IH in Hhs as ->.
      case_decide; [by rewrite Hc|by subst].
Qed.

Lemma transformar_inr (doc doc' : Document) :
  transformar doc = inr doc' ↔
  ∃ i b hijos', find (qn "w:body") (children doc) = Some (i, b)
    ∧ procesar_tablas (children b) = inr hijos'
    ∧ doc' = with_children doc
               (<[i:=with_children b hijos']> (children doc)).
Proof.
  unfold transformar, body.
  destruct (find _ _) as [[i b]|]; simpl.
  - destruct (procesar_tablas _) as [e|hs] eqn:Hhs; simpl; split.
    + done.
    + intros (? & ? & ? & [= <- <-] & ? & _). congruence.
    + intros [= <-]. eauto 6.
    + intros (? & ? & hs' & [= <- <-] & ? & ->).
      by replace hs' with hs by congruence.
  - split; [done|]. intros (? & ? & ? & ? & _). done.
Qed.

Lemma findall_tbl_Forall2 (hijos hijos' : list element) :
  Forall2 (λ c c', if decide (tag c = qn "w:tbl")
                   then procesar_tabla c = inr c' else c' = c) hijos hijos' →
  Forall2 (λ t t', procesar_tabla t = inr t')
    (findall (qn "w:tbl") hijos) (findall (qn "w:tbl") hijos').
Proof.
  unfold findall. induction 1 as [|c c' hs hs' Hc _ IH]; [constructor|].
  rewrite !filter_cons. case_decide as Ht.
  - rewrite decide_True by (by rewrite (procesar_tabla_tag _ _ Hc)).
    by constructor.
  - subst c'. by rewrite decide_False.
Qed.

(** The tables of the result are the tables of the input, each gone through
    the body of the loop. *)
Lemma tables_transformar (doc doc' : Document) :
  transformar doc = inr doc' →
  ∃ ts ts', tables doc = inr ts ∧ tables doc' = inr ts'
    ∧ Forall2 (λ t t', procesar_tabla t = inr t') ts ts'.
Proof.
  intros (i & b & hs & Hb & Hhs & ->)%transformar_inr.
  exists (findall (qn "w:tbl") (children b)), (findall (qn "w:tbl") hs).
  unfold tables, body; simpl. rewrite Hb; simpl.
  erewrite find_insert; [|done|]; simpl.
  - split_and!; [done..|]. by apply findall_tbl_Forall2, procesar_tablas_inr.
  - by apply find_Some in Hb as (_ & ? & _).
Qed.

Lemma procesar_tablas_sin_tablas (hijos : list element) :
  findall (qn "w:tbl") hijos = [] → procesar_tablas hijos = inr hijos.
Proof.
  intros Hn. apply procesar_tablas_inr.
  apply Forall_Forall2_diag, Forall_forall. intros c Hc.
  case_decide; [|done].
  assert (c ∈ findall (qn "w:tbl") hijos) by (by apply list_elem_of_filter).
  rewrite Hn in *. by apply elem_of_nil in H0.
Qed.

End Documento.

(** ** Header-repeat flags *)

Section Marcas.

Lemma quitar_marca_fila_sin_trPr (tr : element) :
  trPr tr = None → quitar_marca_fila tr = tr.
Proof. unfold quitar_marca_fila. by intros ->. Qed.



End Marcas.



(** ** The six borders *)

Section SeisBordes.




End SeisBordes.

(** C1, at a table that repeats an edge.  The document holds one table
    whose border sub-block carries two descriptors of the top edge.  The
    loop removes the first of them only: the processed table has seven
    descriptors of named edges, two of them for the top edge, one of which
    is the dashed one of the input. *)
Theorem C1_borde_repetido_sobrevive :
  transformar Ejemplos.documento_repetido = inr Ejemplos.documento_repetido_1
  ∧ tables Ejemplos.documento_repetido_1 = inr [Ejemplos.tabla_repetida_1]
  ∧ descriptores Ejemplos.tabla_repetida_1
    = Ejemplos.borde "top" "dashed" :: (borde_negro <$> nombres_bordes)
  ∧ length (descriptores Ejemplos.tabla_repetida_1) = 7
  ∧ descriptores Ejemplos.tabla_repetida_1 ≠ borde_negro <$> nombres_bordes.
Proof.
  split_and!; try (vm_compute; reflexivity).
  intros H. vm_compute in H. discriminate H.
Qed.

(** ** The document processor *)

Section Procesador.

Variable load : list byte → result Document.
Variable save : Document → list byte.

Lemma procesar_docx_inr (s : BytesIO) (doc doc' : Document) :
  load (getvalue s) = inr doc → transformar doc = inr doc' →
  procesar_docx load save s = inr {| getvalue := save doc'; tell := 0 |}.
Proof.
  intros Hl Ht. unfold procesar_docx. rewrite Hl; simpl. rewrite Ht; simpl.
  unfold ret, seek, write; simpl. by rewrite drop_nil, app_nil_r.
Qed.

Lemma procesar_docx_load_inl (s : BytesIO) e :
  load (getvalue s) = inl e → procesar_docx load save s = inl e.
Proof. intros Hl. unfold procesar_docx. by rewrite Hl. Qed.

Lemma procesar_docx_transformar_inl (s : BytesIO) doc e :
  load (getvalue s) = inr doc → transformar doc = inl e →
  procesar_docx load save s = inl e.
Proof. intros Hl Ht. unfold procesar_docx. rewrite Hl; simpl. by rewrite Ht. Qed.

Lemma procesar_tabla_con_tblPr (tbl : element) :
  is_Some (find (qn "w:tblPr") (children tbl)) →
  ∃ tbl1, aplicar_bordes_negros_tabla tbl = inr tbl1
    ∧ procesar_tabla tbl = inr (eliminar_repeticion_fila_encabezado tbl1).
Proof.
  intros [[i pr] Hpr].
  assert (∃ tbl1, aplicar_bordes_negros_tabla tbl = inr tbl1) as [tbl1 H1].
  { eexists. apply aplicar_inr. eauto. }
  exists tbl1. split; [done|]. apply procesar_tabla_inr. eauto.
Qed.

Lemma procesar_tablas_con_tblPr (hijos : list element) :
  Forall (λ t, is_Some (find (qn "w:tblPr") (children t)))
    (findall (qn "w:tbl") hijos) →
  ∃ hijos', procesar_tablas hijos = inr hijos'.
Proof.
  unfold findall. induction hijos as [|c hijos IH]; [by eexists|].
  rewrite filter_cons. simpl. case_decide as Hc.
  - intros [Hpr Hrest]%Forall_cons.
    destruct (procesar_tabla_con_tblPr _ Hpr) as (tbl1 & _ & ->).
    destruct (IH Hrest) as [hs ->]. by eexists.
  - intros Hrest. destruct (IH Hrest) as [hs ->]. by eexists.
Qed.

Lemma transformar_sin_tablas (doc : Document) :
  tables doc = inr [] → transformar doc = inr doc.
Proof.
  unfold tables, body. intros Ht. apply transformar_inr.
  destruct (find _ (children doc)) as [[i b]|] eqn:Hb; [|done].
  simpl in Ht. injection Ht as Ht.
  exists i, b, (children b). split_and!; [done|..].
  - by apply procesar_tablas_sin_tablas.
  - rewrite with_children_id.
    rewrite list_insert_id by (by apply find_Some in Hb as (? & _)).
    by rewrite with_children_id.
Qed.

(** X19. On a buffer that parses to a document with a body, all of whose
    tables of the body (the tables of [doc.tables]) have their property
    block, the processor returns a new buffer, positioned at 0, that holds
    the serialization of the document in which every table of the body,
    in document order, went through border normalisation and then
    header-repeat suppression; when the body has no table that document is
    the parsed one. *)
Theorem procesar_docx_tablas_del_cuerpo (s : BytesIO) (doc : Document) (ts : list element) :
  load (getvalue s) = inr doc →
  tables doc = inr ts →
  Forall (λ t, is_Some (find (qn "w:tblPr") (children t))) ts →
  ∃ doc' ts',
    procesar_docx load save s = inr {| getvalue := save doc'; tell := 0 |}
    ∧ tables doc' = inr ts'
    ∧ Forall2 (λ t t', ∃ t1, aplicar_bordes_negros_tabla t = inr t1
                 ∧ t' = eliminar_repeticion_fila_encabezado t1) ts ts'
    ∧ (ts = [] → doc' = doc).
Proof.
  intros Hl Hts Hpr.
  assert (∃ doc', transformar doc = inr doc') as [doc' Ht].
  { unfold tables, body in Hts.
    destruct (find _ (children doc)) as [[i b]|] eqn:Hb; [|done].
    simpl in Hts. injection Hts as <-.
    destruct (procesar_tablas_con_tblPr _ Hpr) as [hs Hhs].
    eexists. apply transformar_inr. eauto 6. }
  destruct (tables_transformar _ _ Ht) as (ts0 & ts' & Hts0 & Hts' & Hall).
  assert (ts0 = ts) as -> by congruence.
  exists doc', ts'. split_and!; [by eapply procesar_docx_inr|done|..].
  - eapply Forall2_impl; [exact Hall|]. intros t t' Hp; simpl.
    by apply procesar_tabla_inr.
  - intros ->. pose proof (transformar_sin_tablas _ Hts) as Hid. congruence.
Qed.

End Procesador.

Lemma procesar_docx_tablas_del_cuerpo_witness :
  let s := BytesIO_de (Zip.save Ejemplos.documento) in
  Zip.load (getvalue s) = inr Ejemplos.documento
  ∧ tables Ejemplos.documento = inr [Ejemplos.tabla]
  ∧ ∃ doc' ts',
      procesar_docx Zip.load Zip.save s
      = inr {| getvalue := Zip.save doc'; tell := 0 |}
      ∧ tables doc' = inr ts'
      ∧ Forall2 (λ t t', ∃ t1, aplicar_bordes_negros_tabla t = inr t1
                   ∧ t' = eliminar_repeticion_fila_encabezado t1)
          [Ejemplos.tabla] ts'
      ∧ ([Ejemplos.tabla] = [] → doc' = Ejemplos.documento).
Proof.
  intros s.
  assert (H1 : Zip.load (getvalue s) = inr Ejemplos.documento)
    by apply Zip.load_save.
  assert (H2 : tables Ejemplos.documento = inr [Ejemplos.tabla])
    by (vm_compute; reflexivity).
  assert (H3 : Forall (λ t, is_Some (find (qn "w:tblPr") (children t)))
                 [Ejemplos.tabla])
    by (apply Forall_cons_2;
        [apply (bool_decide_unpack _); vm_compute; exact I|apply Forall_nil_2]).
  exact (conj H1 (conj H2
    (procesar_docx_tablas_del_cuerpo Zip.load Zip.save s _ _ H1 H2 H3))).
Defined.

(** ** The handler *)

Section Nombres.

Lemma rsplit1_sin (c : ascii) (s : string) :
  contiene c s = false → rsplit1 c s = [s].
Proof.
  induction s as [|a s IH]; simpl; [done|].
  case_decide; [done|]. intros Hs. by rewrite IH.
Qed.

(** Where the separator occurs, the split is at its last occurrence. *)
Lemma rsplit1_con (c : ascii) (s : string) :
  contiene c s = true →
  ∃ h t, rsplit1 c s = [h; t] ∧ s = h +:+ String c t ∧ contiene c t = false.
Proof.
  induction s as [|a s IH]; simpl; [done|].
  destruct (contiene c s) eqn:Hs.
  - intros _. destruct (IH eq_refl) as (h & t & -> & -> & Ht).
    exists (String a h), t. done.
  - rewrite rsplit1_sin by done. case_decide as Ha; [|done].
    intros _. subst a. by exists EmptyString, s.
Qed.

(** The output name: the input name up to its last dot, or all of it when
    it has none, then the suffix. *)
Lemma nombre_salida_base (fn : string) :
  ∃ base, nombre_salida fn = base +:+ "_procesado.docx"
    ∧ (contiene "." fn = false → base = fn)
    ∧ (contiene "." fn = true →
       ∃ ext, fn = base +:+ "." +:+ ext ∧ contiene "." ext = false).
Proof.
  unfold nombre_salida. destruct (contiene "." fn) eqn:Hc.
  - destruct (rsplit1_con _ _ Hc) as (h & t & -> & -> & Ht).
    exists h. split_and!; [done..|]. intros _. by exists t.
  - exists fn. done.
Qed.

End Nombres.

Section Servicio.

Variable load : list byte → result Document.
Variable save : Document → list byte.

(** What the handler answers, from what it read of the request. *)
Lemma process_entrada (request : Request) :
  process load save request
  = match bytes_entrada request with
    | None => jsonify [("error", "No se recibió archivo")] 400
    | Some bs =>
        match procesar_docx load save (BytesIO_de bs) with
        | inl e => jsonify [("error", str e)] 500
        | inr salida =>
            send_file salida true
              (nombre_salida (nombre_entrada request)) mimetype_docx
        end
    end.
Proof.
  unfold process, process_try, bytes_entrada, nombre_entrada, responder.
  destruct (files_get "file" request) as [f|].
  - by destruct (procesar_docx _ _ _).
  - destruct (get_data request) as [|b bs]; [done|].
    by destruct (procesar_docx _ _ _).
Qed.

(** The answer to a request whose bytes parse and whose tables are well
    formed. *)
Lemma process_ok (request : Request) bs (doc doc' : Document) :
  bytes_entrada request = Some bs →
  load bs = inr doc → transformar doc = inr doc' →
  process load save request
  = send_file {| getvalue := save doc'; tell := 0 |} true
      (nombre_salida (nombre_entrada request)) mimetype_docx.
Proof.
  intros Hbs Hl Ht. rewrite process_entrada, Hbs.
  by rewrite (procesar_docx_inr load save (BytesIO_de bs) doc doc').
Qed.

(** C5. When the document processor raises on the bytes of the request,
    the handler answers 500 with the message of the exception in the field
    error; a failure to parse the bytes is such an exception, raised by
    the processor itself.  The handler is a total function: it produces a
    response in every case. *)
Theorem C5_excepcion_500 (request : Request) (bs : list byte) :
  bytes_entrada request = Some bs →
  (∀ e, procesar_docx load save (BytesIO_de bs) = inl e →
        process load save request = jsonify [("error", str e)] 500
        ∧ status_code (process load save request) = 500)
  ∧ (∀ e, load bs = inl e →
        procesar_docx load save (BytesIO_de bs) = inl e
        ∧ process load save request = jsonify [("error", str e)] 500).
Proof.
  intros Hbs. rewrite process_entrada, Hbs. split.
  - by intros e ->.
  - intros e He.
    by rewrite (procesar_docx_load_inl load save (BytesIO_de bs) e He).
Qed.

(** C6. Without a file field and with an empty raw body the handler
    answers 400 with a JSON body that has the field error. *)
Theorem C6_sin_entrada_400 (request : Request) :
  files_get "file" request = None →
  get_data request = [] →
  process load save request = jsonify [("error", "No se recibió archivo")] 400
  ∧ status_code (process load save request) = 400.
Proof.
  intros Hf Hd. rewrite process_entrada. unfold bytes_entrada.
  by rewrite Hf, Hd.
Qed.

(** C8. A response that sends the document carries the document MIME
    type, and its download name is the input file name cut before its last
    dot (the whole name when it has no dot) followed by _procesado.docx. *)
Theorem C8_nombre_de_salida (request : Request) cuerpo adjunto nombre mt :
  process load save request = send_file cuerpo adjunto nombre mt →
  mt = mimetype_docx
  ∧ ∃ base, nombre = base +:+ "_procesado.docx"
      ∧ (contiene "." (nombre_entrada request) = false →
         base = nombre_entrada request)
      ∧ (contiene "." (nombre_entrada request) = true →
         ∃ ext, nombre_entrada request = base +:+ "." +:+ ext
                ∧ contiene "." ext = false).
Proof.
  rewrite process_entrada.
  destruct (bytes_entrada request) as [bs|]; [|done].
  destruct (procesar_docx _ _ _) as [e|salida]; [done|].
  intros [= _ _ <- <-]. split; [done|]. apply nombre_salida_base.
Qed.

(** C9. An uploaded file of zero bytes is not answered with 400: its
    bytes go to the document processor, and since an empty buffer is not a
    container the answer is the 500 of the exception. *)
Theorem C9_archivo_vacio (request : Request) (f : FileStorage) :
  files_get "file" request = Some f →
  read f = [] →
  status_code (process load save request) ≠ 400
  ∧ ∀ e, load [] = inl e →
      process load save request = jsonify [("error", str e)] 500.
Proof.
  intros Hf Hr. rewrite process_entrada. unfold bytes_entrada.
  rewrite Hf, Hr. split.
  - by destruct (procesar_docx _ _ _).
  - intros e He.
    by rewrite (procesar_docx_load_inl load save (BytesIO_de []) e He).
Qed.

(** C10. Without a usable file name (a raw body, or an upload whose name
    is empty or missing) the download name of a sent document is
    input_procesado.docx. *)
Theorem C10_nombre_por_defecto (request : Request) cuerpo adjunto nombre mt :
  process load save request = send_file cuerpo adjunto nombre mt →
  files_get "file" request = None
  ∨ (∃ f, files_get "file" request = Some f
        ∧ (filename f = None ∨ filename f = Some EmptyString)) →
  nombre_entrada request = "input.docx"
  ∧ nombre = "input_procesado.docx".
Proof.
  rewrite process_entrada.
  destruct (bytes_entrada request) as [bs|]; [|done].
  destruct (procesar_docx _ _ _) as [e|salida]; [done|].
  intros [= _ _ <- _] Hn.
  assert (nombre_entrada request = "input.docx") as ->; [|done].
  unfold nombre_entrada.
  destruct Hn as [->|(f & -> & [->| ->])]; done.
Qed.

End Servicio.

Section Testigos.

Import Ejemplos.

Lemma transformar_documento : transformar documento = inr documento_procesado.
Proof. by vm_compute. Qed.

Lemma process_peticion_archivo :
  process Zip.load Zip.save peticion_archivo
  = send_file {| getvalue := Zip.save documento_procesado; tell := 0 |} true
      "informe.v2_procesado.docx" mimetype_docx.
Proof.
  rewrite (process_ok Zip.load Zip.save peticion_archivo
             (Zip.save documento) documento documento_procesado);
    [done|done|apply Zip.load_save|apply transformar_documento].
Qed.

Lemma process_peticion_cruda :
  process Zip.load Zip.save peticion_cruda
  = send_file {| getvalue := Zip.save documento_procesado; tell := 0 |} true
      "input_procesado.docx" mimetype_docx.
Proof.
  rewrite (process_ok Zip.load Zip.save peticion_cruda
             (Zip.save documento) documento documento_procesado);
    [done|done|apply Zip.load_save|apply transformar_documento].
Qed.

End Testigos.

Lemma C5_witness :
  bytes_entrada Ejemplos.peticion_basura = Some [x00; x01; x02]
  ∧ (∀ e, procesar_docx Zip.load Zip.save (BytesIO_de [x00; x01; x02]) = inl e →
        process Zip.load Zip.save Ejemplos.peticion_basura
        = jsonify [("error", str e)] 500
        ∧ status_code (process Zip.load Zip.save Ejemplos.peticion_basura) = 500)
  ∧ (∀ e, Zip.load [x00; x01; x02] = inl e →
        procesar_docx Zip.load Zip.save (BytesIO_de [x00; x01; x02]) = inl e
        ∧ process Zip.load Zip.save Ejemplos.peticion_basura
          = jsonify [("error", str e)] 500).
Proof.
  exact (conj eq_refl
    (C5_excepcion_500 Zip.load Zip.save Ejemplos.peticion_basura _ eq_refl)).
Defined.

Lemma C6_witness :
  files_get "file" Ejemplos.peticion_vacia = None
  ∧ get_data Ejemplos.peticion_vacia = []
  ∧ process Zip.load Zip.save Ejemplos.peticion_vacia
    = jsonify [("error", "No se recibió archivo")] 400
  ∧ status_code (process Zip.load Zip.save Ejemplos.peticion_vacia) = 400.
Proof.
  exact (conj eq_refl (conj eq_refl
    (C6_sin_entrada_400 Zip.load Zip.save Ejemplos.peticion_vacia
       eq_refl eq_refl))).
Defined.

Lemma C8_witness :
  process Zip.load Zip.save Ejemplos.peticion_archivo
  = send_file
      {| getvalue := Zip.save Ejemplos.documento_procesado; tell := 0 |} true
      "informe.v2_procesado.docx" mimetype_docx
  ∧ mimetype_docx = mimetype_docx
  ∧ ∃ base, "informe.v2_procesado.docx" = base +:+ "_procesado.docx"
      ∧ (contiene "." (nombre_entrada Ejemplos.peticion_archivo) = false →
         base = nombre_entrada Ejemplos.peticion_archivo)
      ∧ (contiene "." (nombre_entrada Ejemplos.peticion_archivo) = true →
         ∃ ext, nombre_entrada Ejemplos.peticion_archivo = base +:+ "." +:+ ext
                ∧ contiene "." ext = false).
Proof.
  exact (conj process_peticion_archivo
    (C8_nombre_de_salida Zip.load Zip.save _ _ _ _ _ process_peticion_archivo)).
Defined.

Lemma C9_witness :
  files_get "file" Ejemplos.peticion_archivo_vacio
  = Some {| filename := Some "vacio.docx"; read := [] |}
  ∧ status_code (process Zip.load Zip.save Ejemplos.peticion_archivo_vacio) ≠ 400
  ∧ ∀ e, Zip.load [] = inl e →
      process Zip.load Zip.save Ejemplos.peticion_archivo_vacio
      = jsonify [("error", str e)] 500.
Proof.
  exact (conj eq_refl
    (C9_archivo_vacio Zip.load Zip.save Ejemplos.peticion_archivo_vacio
       {| filename := Some "vacio.docx"; read := [] |} eq_refl eq_refl)).
Defined.

Lemma C10_witness :
  process Zip.load Zip.save Ejemplos.peticion_cruda
  = send_file
      {| getvalue := Zip.save Ejemplos.documento_procesado; tell := 0 |} true
      "input_procesado.docx" mimetype_docx
  ∧ nombre_entrada Ejemplos.peticion_cruda = "input.docx"
  ∧ "input_procesado.docx" = "input_procesado.docx".
Proof.
  exact (conj process_peticion_cruda
    (C10_nombre_por_defecto Zip.load Zip.save _ _ _ _ _
       process_peticion_cruda (or_introl eq_refl))).
Defined.

(** ** The frame *)

Section Marco.

Implicit Types (c pr tr tbl b : element).

Lemma misma_cabecera_refl c : misma_cabecera c c.
Proof. done. Qed.

Lemma misma_cabecera_with_children c cs :
  misma_cabecera c (with_children c cs).
Proof. done. Qed.

Lemma Forall2_insert_refl (R : element → element → Prop)
    (cs : list element) i c c' :
  (∀ x, R x x) → cs !! i = Some c → R c c' → Forall2 R cs (<[i:=c']> cs).
Proof.
  intros Hrefl Hi Hc. rewrite <- (list_insert_id cs i c) at 1 by done.
  apply Forall2_insert; [|done].
  by apply Forall_Forall2_diag, Forall_forall.
Qed.

Lemma hijos_salvo_refl t (R : element → element → Prop) cs :
  (∀ x, R x x) → hijos_salvo t R cs cs.
Proof.
  intros Hrefl. apply Forall_Forall2_diag, Forall_forall.
  intros c _. by case_decide.
Qed.

Lemma marco_trPr_refl pr : marco_trPr pr pr.
Proof. done. Qed.

Lemma marco_tr_refl tr : marco_tr tr tr.
Proof. split; [done|]. apply hijos_salvo_refl, marco_trPr_refl. Qed.

Lemma marco_tblPr_refl pr : marco_tblPr pr pr.
Proof. done. Qed.

Lemma marco_hijo_tbl_refl c : marco_hijo_tbl c c.
Proof.
  unfold marco_hijo_tbl.
  repeat case_decide; auto using marco_tblPr_refl, marco_tr_refl.
Qed.

Lemma marco_tbl_refl tbl : marco_tbl tbl tbl.
Proof.
  split; [done|].
  apply Forall_Forall2_diag, Forall_forall. intros c _.
  apply marco_hijo_tbl_refl.
Qed.

Lemma marco_body_refl b : marco_body b b.
Proof. split; [done|]. apply hijos_salvo_refl, marco_tbl_refl. Qed.

(** A row and the row after the loop. *)
Lemma marco_quitar_marca_fila tr : marco_tr tr (quitar_marca_fila tr).
Proof.
  unfold quitar_marca_fila.
  destruct (trPr tr) as [[i pr]|] eqn:Hpr; [|apply marco_tr_refl].
  apply find_Some in Hpr as (Hi & Ht & _).
  split; [done|]. simpl. unfold hijos_salvo.
  eapply Forall2_insert_refl; [|done|].
  - intros x. by case_decide.
  - rewrite decide_True by done. split; [done|]. simpl.
    rewrite quitar_tblHeader_filter, list_filter_filter.
    apply list_filter_iff. tauto.
Qed.

Lemma marco_paso_fila c : marco_hijo_tbl c (paso_fila c).
Proof.
  unfold marco_hijo_tbl, paso_fila.
  destruct (decide (tag c = qn "w:tblPr")) as [Hc|Hc].
  - rewrite decide_False; [apply marco_tblPr_refl|].
    rewrite Hc. tags_distintos.
  - case_decide; [apply marco_quitar_marca_fila|done].
Qed.

(** A table and the table after the body of the loop. *)
Lemma marco_procesar_tabla tbl tbl' :
  procesar_tabla tbl = inr tbl' → marco_tbl tbl tbl'.
Proof.
  intros (tbl1 & (i & pr & Hf & ->)%aplicar_inr & ->)%procesar_tabla_inr.
  apply find_Some in Hf as (Hi & Ht & _).
  split; [done|]. simpl.
  rewrite list_fmap_insert.
  rewrite <- (list_insert_id (children tbl) i pr) at 1 by done.
  apply Forall2_insert.
  - apply Forall2_fmap_r, Forall_Forall2_diag, Forall_forall.
    intros c _. apply marco_paso_fila.
  - unfold marco_hijo_tbl, paso_fila.
    rewrite decide_True by done.
    rewrite decide_False
      by (rewrite normalizar_tblPr_tag, Ht; tags_distintos).
    split.
    + split_and!; [apply normalizar_tblPr_tag|apply normalizar_tblPr_attrib
                  |apply normalizar_tblPr_text].
    + apply otros_normalizar.
Qed.

End Marco.

(** C7. The transform leaves everything but two kinds of block as it was:
    outside the body, and in the body outside the tables, every element is
    the element of the input; in a table, every child other than the
    property block and the rows is the same, the property block differs at
    most in its border sub-block, and a row differs at most in the header
    flags of its property block, so that the cells are the same. *)
Theorem C7_marco (doc doc' : Document) :
  transformar doc = inr doc' → marco_documento doc doc'.
Proof.
  intros (i & b & hs & Hb & Hhs & ->)%transformar_inr.
  apply find_Some in Hb as (Hi & Ht & _).
  split; [done|]. simpl. unfold hijos_salvo.
  eapply Forall2_insert_refl; [|done|].
  - intros x. case_decide; [apply marco_body_refl|done].
  - rewrite decide_True by done. split; [done|]. simpl.
    apply procesar_tablas_inr in Hhs.
    eapply Forall2_impl; [exact Hhs|]. intros c c'; simpl.
    case_decide; [apply marco_procesar_tabla|done].
Qed.

Lemma C7_witness :
  transformar Ejemplos.documento = inr Ejemplos.documento_procesado
  ∧ marco_documento Ejemplos.documento Ejemplos.documento_procesado.
Proof.
  assert (H1 : transformar Ejemplos.documento
               = inr Ejemplos.documento_procesado) by (vm_compute; reflexivity).
  exact (conj H1 (C7_marco _ _ H1)).
Defined.

(** The frame tells documents apart: a change of the text of a paragraph
    is not within it. *)
Lemma marco_documento_distingue :
  ¬ marco_documento Ejemplos.documento Ejemplos.documento_otro_texto.
Proof.
  intros [_ H]. unfold hijos_salvo in H.
  apply Forall2_cons_1 in H as [H _].
  rewrite decide_True in H by reflexivity.
  destruct H as [_ H]. unfold hijos_salvo in H.
  apply Forall2_cons_1 in H as [H _].
  rewrite decide_False in H by tags_distintos.
  vm_compute in H. discriminate H.
Qed.

(** ** Running the transform twice *)

(** C4, at a table that repeats an edge.  The processor is run on the
    container of the document whose table carries two descriptors of the
    top edge, and again on its own output.  After the first run the dashed
    descriptor of the input is still among the descriptors of the table;
    after the second run it is gone and the fixed top descriptor is there
    twice: the descriptors after two runs are not those after one. *)
Theorem C4_dos_pasadas_difieren :
  let s0 := BytesIO_de (Zip.save Ejemplos.documento_repetido) in
  let s1 := {| getvalue := Zip.save Ejemplos.documento_repetido_1; tell := 0 |} in
  let s2 := {| getvalue := Zip.save Ejemplos.documento_repetido_2; tell := 0 |} in
  procesar_docx Zip.load Zip.save s0 = inr s1
  ∧ procesar_docx Zip.load Zip.save s1 = inr s2
  ∧ tables Ejemplos.documento_repetido_1 = inr [Ejemplos.tabla_repetida_1]
  ∧ tables Ejemplos.documento_repetido_2 = inr [Ejemplos.tabla_repetida_2]
  ∧ descriptores Ejemplos.tabla_repetida_1
    = Ejemplos.borde "top" "dashed" :: (borde_negro <$> nombres_bordes)
  ∧ descriptores Ejemplos.tabla_repetida_2
    = borde_negro "top" :: (borde_negro <$> nombres_bordes)
  ∧ Ejemplos.borde "top" "dashed" ∈ descriptores Ejemplos.tabla_repetida_1
  ∧ Ejemplos.borde "top" "dashed" ∉ descriptores Ejemplos.tabla_repetida_2.
Proof.
  intros s0 s1 s2.
  assert (H1 : transformar Ejemplos.documento_repetido
               = inr Ejemplos.documento_repetido_1) by (vm_compute; reflexivity).
  assert (H2 : transformar Ejemplos.documento_repetido_1
               = inr Ejemplos.documento_repetido_2) by (vm_compute; reflexivity).
  split_and!.
  - apply (procesar_docx_inr Zip.load Zip.save s0 _ _ (Zip.load_save _) H1).
  - apply (procesar_docx_inr Zip.load Zip.save s1 _ _ (Zip.load_save _) H2).
  - by vm_compute.
  - by vm_compute.
  - by vm_compute.
  - by vm_compute.
  - apply (bool_decide_unpack _). by vm_compute.
  - apply (bool_decide_unpack _). by vm_compute.
Qed.

(** Without repeated descriptors in the input a second run changes
    nothing. *)

Section Idempotencia.

Implicit Types (c pr tr tbl : element).

Lemma filter_ninguno {A} (P : A → Prop) `{!∀ x, Decision (P x)} (l : list A) :
  (∀ x, ¬ P x) → filter P l = [].
Proof.
  intros HP. induction l as [|x l IH]; [done|].
  by rewrite filter_cons_False.
Qed.

Lemma sin_repetidos_establecer (hijos : list element) :
  sin_repetidos hijos → sin_repetidos (establecer_bordes 8 "000000" hijos).
Proof.
  intros Hh t Ht. rewrite establecer_bordes_sin_repetidos by done.
  unfold findall. rewrite filter_app, length_app, list_filter_filter.
  rewrite filter_ninguno.
  - change (length (@nil element)) with 0. rewrite Nat.add_0_l.
    revert t Ht. apply Forall_forall.
    apply (bool_decide_unpack _). by vm_compute.
  - intros c [Hc Hn]. apply Hn. unfold es_borde_nombrado. rewrite Hc.
    by apply list_elem_of_fmap_2.
Qed.

Lemma establecer_bordes_idem (hijos : list element) :
  sin_repetidos hijos →
  establecer_bordes 8 "000000" (establecer_bordes 8 "000000" hijos)
  = establecer_bordes 8 "000000" hijos.
Proof.
  intros Hh.
  rewrite (establecer_bordes_sin_repetidos _ (sin_repetidos_establecer _ Hh)).
  rewrite (establecer_bordes_sin_repetidos _ Hh).
  rewrite filter_app, list_filter_filter. f_equal.
  replace (filter _ (borde_negro <$> nombres_bordes)) with (@nil element)
    by (by vm_compute).
  rewrite app_nil_r. apply list_filter_iff. tauto.
Qed.

Lemma normalizar_tblPr_find ancho color pr :
  ∃ j b, find (qn "w:tblBorders") (children (normalizar_tblPr ancho color pr))
         = Some (j, b)
    ∧ children b = establecer_bordes ancho color (bordes_previos pr).
Proof.
  unfold bordes_previos, normalizar_tblPr.
  destruct (find _ (children pr)) as [[j b]|] eqn:Hf.
  - exists j, (with_children b (establecer_bordes ancho color (children b))).
    split; [|done]. cbn [children with_children].
    apply find_insert with b; [done|].
    cbn [tag with_children]. by apply find_Some in Hf as (_ & ? & _).
  - exists (length (children pr)),
      (with_children (OxmlElement "w:tblBorders")
         (establecer_bordes ancho color [])).
    split; [|done]. cbn [children with_children OxmlElement].
    rewrite insert_append. by apply find_append_nuevo.
Qed.

Lemma normalizar_tblPr_idem pr :
  sin_repetidos (bordes_previos pr) →
  normalizar_tblPr 8 "000000" (normalizar_tblPr 8 "000000" pr)
  = normalizar_tblPr 8 "000000" pr.
Proof.
  intros Hpr.
  destruct (normalizar_tblPr_find 8 "000000" pr) as (j & b & Hf & Hb).
  unfold normalizar_tblPr at 1. rewrite Hf.
  rewrite Hb, establecer_bordes_idem, <- Hb by done.
  rewrite with_children_id.
  rewrite list_insert_id by (by apply find_Some in Hf as (? & _)).
  apply with_children_id.
Qed.

Lemma quitar_marca_fila_idem tr :
  quitar_marca_fila (quitar_marca_fila tr) = quitar_marca_fila tr.
Proof.
  destruct (trPr tr) as [[i pr]|] eqn:Hpr.
  - assert (Hpr' : trPr (quitar_marca_fila tr)
                   = Some (i, with_children pr (quitar_tblHeader (children pr)))).
    { unfold quitar_marca_fila. rewrite Hpr. unfold trPr in *; simpl.
      apply find_insert with pr; [done|].
      simpl. by apply find_Some in Hpr as (_ & ? & _). }
    unfold quitar_marca_fila at 1. rewrite Hpr'.
    unfold quitar_marca_fila. rewrite Hpr. simpl.
    rewrite list_insert_insert_eq. do 2 f_equal. unfold with_children; simpl.
    f_equal. rewrite !quitar_tblHeader_filter, list_filter_filter.
    apply list_filter_iff. tauto.
  - by rewrite !(quitar_marca_fila_sin_trPr tr Hpr).
Qed.

Lemma paso_fila_idem c : paso_fila (paso_fila c) = paso_fila c.
Proof.
  destruct (decide (tag c = qn "w:tr")) as [Hc|Hc].
  - assert (paso_fila c = quitar_marca_fila c) as ->
      by (unfold paso_fila; by rewrite decide_True).
    unfold paso_fila.
    rewrite decide_True by (by rewrite quitar_marca_fila_tag).
    apply quitar_marca_fila_idem.
  - assert (paso_fila c = c) as ->
      by (unfold paso_fila; by rewrite decide_False).
    unfold paso_fila. by rewrite decide_False.
Qed.

Lemma eliminar_idem tbl :
  eliminar_repeticion_fila_encabezado (eliminar_repeticion_fila_encabezado tbl)
  = eliminar_repeticion_fila_encabezado tbl.
Proof.
  unfold eliminar_repeticion_fila_encabezado, with_children; simpl. f_equal.
  rewrite <- list_fmap_compose. apply list_fmap_ext.
  intros _ c _. apply paso_fila_idem.
Qed.

Lemma procesar_tabla_idem tbl tbl' :
  tabla_sin_repetidos tbl →
  procesar_tabla tbl = inr tbl' → procesar_tabla tbl' = inr tbl'.
Proof.
  intros Hn (tbl1 & (i & pr & Hf & ->)%aplicar_inr & ->)%procesar_tabla_inr.
  specialize (Hn i pr Hf).
  set (tbl1 := with_children tbl _).
  assert (Hf1 : find (qn "w:tblPr") (children tbl1)
                = Some (i, normalizar_tblPr 8 "000000" pr)).
  { simpl. apply find_insert with pr; [done|].
    rewrite normalizar_tblPr_tag. by apply find_Some in Hf as (_ & ? & _). }
  apply procesar_tabla_inr.
  exists (eliminar_repeticion_fila_encabezado tbl1).
  split; [|by rewrite eliminar_idem].
  apply aplicar_inr. eexists _, _. split.
  - rewrite find_tblPr_eliminar. exact Hf1.
  - rewrite normalizar_tblPr_idem by done.
    rewrite <- find_tblPr_eliminar in Hf1.
    apply find_Some in Hf1 as (Hi & _).
    rewrite list_insert_id by done. by rewrite with_children_id.
Qed.

Lemma procesar_tablas_idem (hijos hijos' : list element) :
  Forall tabla_sin_repetidos (findall (qn "w:tbl") hijos) →
  procesar_tablas hijos = inr hijos' → procesar_tablas hijos' = inr hijos'.
Proof.
  rewrite !procesar_tablas_inr. unfold findall.
  intros Hn H. induction H as [|c c' hs hs' Hc _ IH]; [constructor|].
  rewrite filter_cons in Hn. case_decide as Ht.
  - apply Forall_cons in Hn as [Hn1 Hn].
    constructor; [|by apply IH].
    rewrite decide_True by (by rewrite (procesar_tabla_tag _ _ Hc)).
    by eapply procesar_tabla_idem.
  - subst c'. constructor; [|by apply IH]. by rewrite decide_False.
Qed.

(** On a document whose tables repeat no named edge, the transform applied
    to its own result returns that result. *)
Lemma transformar_idem (doc doc' : Document) (ts : list element) :
  tables doc = inr ts → Forall tabla_sin_repetidos ts →
  transformar doc = inr doc' → transformar doc' = inr doc'.
Proof.
  intros Hts Hn (i & b & hs & Hb & Hhs & ->)%transformar_inr.
  unfold tables, body in Hts. rewrite Hb in Hts. simpl in Hts.
  injection Hts as <-.
  apply transformar_inr. exists i, (with_children b hs), hs.
  assert (Hb' : find (qn "w:body") (<[i:=with_children b hs]> (children doc))
                = Some (i, with_children b hs)).
  { apply find_insert with b; [done|].
    simpl. by apply find_Some in Hb as (_ & ? & _). }
  split_and!; [done|by eapply procesar_tablas_idem|].
  simpl. unfold with_children; simpl. f_equal.
  by rewrite list_insert_insert_eq.
Qed.


End Idempotencia.

(** ** Two more runs of the program *)

(** A table without property block makes the processor raise, and the
    handler answer 500 with the message. *)
Lemma tabla_sin_tblPr_falla :
  transformar Ejemplos.documento_sin_tblPr
  = inl (InvalidXmlError "required ``<w:tblPr>`` child element not present")
  ∧ process Zip.load Zip.save
      {| files := []; get_data := Zip.save Ejemplos.documento_sin_tblPr |}
    = jsonify
        [("error", "required ``<w:tblPr>`` child element not present")] 500.
Proof.
  assert (H : transformar Ejemplos.documento_sin_tblPr
              = inl (InvalidXmlError
                       "required ``<w:tblPr>`` child element not present"))
    by (by vm_compute).
  split; [done|]. rewrite process_entrada.
  change (bytes_entrada _) with (Some (Zip.save Ejemplos.documento_sin_tblPr)).
  cbv beta iota.
  by rewrite (procesar_docx_transformar_inl Zip.load Zip.save
                (BytesIO_de (Zip.save Ejemplos.documento_sin_tblPr)) _ _
                (Zip.load_save _) H).
Qed.

(** A row flagged three times loses the three flags. *)
Lemma fila_con_tres_marcas :
  quitar_marca_fila
    (Ejemplos.el "w:tr"
       [Ejemplos.el "w:trPr"
          [Ejemplos.marca; Ejemplos.el "w:cantSplit" []; Ejemplos.marca;
           Ejemplos.marca];
        Ejemplos.celda "a"; Ejemplos.celda "b"])
  = Ejemplos.fila_desmarcada.
Proof. by vm_compute. Qed.

(** The tables of a document are those of [doc.tables]: a table inside a
    cell is not visited, it comes out as it went in. *)
Lemma tabla_anidada_intacta :
  transformar Ejemplos.documento_anidado
  = inr Ejemplos.documento_anidado_procesado.
Proof. by vm_compute. Qed.

(** * Further properties of the program *)

(** ** The border loop on any input *)

Section BordesGeneral.

Implicit Types (c : element) (cs : list element) (t : string).

Lemma sin_primero_nil t : sin_primero t [] = [].
Proof. done. Qed.

Lemma sin_primero_cons t c cs :
  sin_primero t (c :: cs)
  = if decide (tag c = t) then cs else c :: sin_primero t cs.
Proof.
  unfold sin_primero, find, remove. csimpl. case_decide; [done|].
  by destruct (list_find _ cs) as [[i y]|].
Qed.

Lemma sin_primero_app_otro t cs c :
  tag c ≠ t → sin_primero t (cs ++ [c]) = sin_primero t cs ++ [c].
Proof.
  intros Hc. induction cs as [|x cs IH].
  - simpl. by rewrite sin_primero_cons, decide_False.
  - rewrite <- app_comm_cons, !sin_primero_cons. case_decide; [done|].
    by rewrite IH.
Qed.

Lemma filter_sin_primero (P : element → Prop) `{!∀ c, Decision (P c)} t cs :
  (∀ c, tag c = t → ¬ P c) → filter P (sin_primero t cs) = filter P cs.
Proof.
  intros HP. induction cs as [|x cs IH]; [done|].
  rewrite sin_primero_cons. case_decide as Hx.
  - by rewrite filter_cons_False by auto.
  - by rewrite !filter_cons, IH.
Qed.

Lemma length_findall_sin_primero t cs :
  length (findall t (sin_primero t cs)) = pred (length (findall t cs)).
Proof.
  unfold findall. induction cs as [|x cs IH]; [done|].
  rewrite sin_primero_cons, filter_cons. case_decide as Hx; [done|].
  by rewrite filter_cons_False.
Qed.

Lemma sin_primeros_app_otro (ns : list string) cs c :
  tag c ∉ etiqueta_borde <$> ns →
  sin_primeros ns (cs ++ [c]) = sin_primeros ns cs ++ [c].
Proof.
  unfold sin_primeros. revert cs.
  induction ns as [|t ns IH]; intros cs Hc; [done|].
  rewrite fmap_cons, not_elem_of_cons in Hc. destruct Hc as [Ht Hns].
  simpl. rewrite sin_primero_app_otro by done. by apply IH.
Qed.

(** The loop takes out the first descriptor of each edge and leaves the
    new descriptors at the end, in the order of the names: a descriptor
    once appended is not removed by a later turn. *)
Lemma foldl_paso_borde_forma ancho color (ns : list string) cs :
  NoDup ns →
  foldl (paso_borde ancho color) cs ns
  = sin_primeros ns cs ++ (_crear_borde ancho color <$> ns).
Proof.
  revert cs. induction ns as [|t ns IH]; intros cs Hnd.
  - simpl. by rewrite app_nil_r.
  - apply NoDup_cons in Hnd as [Ht Hnd]. simpl.
    rewrite IH by done.
    change (paso_borde ancho color cs t)
      with (sin_primero (etiqueta_borde t) cs ++ [_crear_borde ancho color t]).
    rewrite sin_primeros_app_otro.
    + by rewrite <- app_assoc.
    + rewrite tag_crear_borde. intros (t' & Heq & Hin)%list_elem_of_fmap.
      apply etiqueta_borde_inj in Heq as ->. done.
Qed.

Lemma establecer_bordes_forma ancho color cs :
  establecer_bordes ancho color cs
  = sin_primeros nombres_bordes cs
      ++ (_crear_borde ancho color <$> nombres_bordes).
Proof. apply foldl_paso_borde_forma, NoDup_nombres_bordes. Qed.

Lemma filter_sin_primeros (P : element → Prop) `{!∀ c, Decision (P c)}
    (ns : list string) cs :
  (∀ c, tag c ∈ etiqueta_borde <$> ns → ¬ P c) →
  filter P (sin_primeros ns cs) = filter P cs.
Proof.
  unfold sin_primeros. revert cs.
  induction ns as [|t ns IH]; intros cs HP; [done|].
  simpl. rewrite IH.
  - apply filter_sin_primero. intros c Hc. apply HP.
    rewrite Hc, fmap_cons. by left.
  - intros c Hc. apply HP. rewrite fmap_cons. by right.
Qed.

Lemma length_findall_sin_primeros (ns : list string) t cs :
  NoDup ns → t ∈ ns →
  length (findall (etiqueta_borde t) (sin_primeros ns cs))
  = pred (length (findall (etiqueta_borde t) cs)).
Proof.
  revert cs. induction ns as [|t0 ns IH]; intros cs Hnd Ht.
  - by apply elem_of_nil in Ht.
  - apply NoDup_cons in Hnd as [Ht0 Hnd].
    change (sin_primeros (t0 :: ns) cs)
      with (sin_primeros ns (sin_primero (etiqueta_borde t0) cs)).
    destruct (decide (t = t0)) as [->|Hne].
    + unfold findall at 1. rewrite filter_sin_primeros.
      * apply length_findall_sin_primero.
      * intros c (t' & Hc & Hin)%list_elem_of_fmap Heq.
        rewrite Hc in Heq. apply etiqueta_borde_inj in Heq as <-. done.
    + apply elem_of_cons in Ht as [?|Ht]; [done|].
      rewrite IH by done. unfold findall. f_equal. f_equal.
      apply filter_sin_primero. intros c Hc Heq.
      rewrite Hc in Heq. by apply etiqueta_borde_inj in Heq.
Qed.

Lemma findall_crear_fuera ancho color (ns : list string) t :
  t ∉ ns → findall (etiqueta_borde t) (_crear_borde ancho color <$> ns) = [].
Proof.
  unfold findall. induction ns as [|t0 ns IH]; intros Ht; [done|].
  apply not_elem_of_cons in Ht as [Hne Ht].
  rewrite fmap_cons, filter_cons_False; [by apply IH|].
  rewrite tag_crear_borde. intros Heq%etiqueta_borde_inj. by subst.
Qed.

Lemma length_findall_crear ancho color (ns : list string) t :
  NoDup ns → t ∈ ns →
  length (findall (etiqueta_borde t) (_crear_borde ancho color <$> ns)) = 1.
Proof.
  induction ns as [|t0 ns IH]; intros Hnd Ht.
  - by apply elem_of_nil in Ht.
  - apply NoDup_cons in Hnd as [Ht0 Hnd].
    unfold findall. rewrite fmap_cons, filter_cons, tag_crear_borde.
    destruct (decide (t = t0)) as [->|Hne].
    + rewrite decide_True by done.
      pose proof (findall_crear_fuera ancho color ns t0 Ht0) as Hf.
      unfold findall in Hf. by rewrite Hf.
    + apply elem_of_cons in Ht as [?|Ht]; [done|].
      rewrite decide_False by (intros Heq%etiqueta_borde_inj; by subst).
      by apply IH.
Qed.

End BordesGeneral.

Section BordesTabla.

Implicit Types (tbl pr : element).

Lemma bordes_tabla_aplicar ancho color tbl tbl' :
  aplicar_bordes_negros_tabla_con ancho color tbl = inr tbl' →
  bordes_tabla tbl' = establecer_bordes ancho color (bordes_tabla tbl).
Proof.
  intros (i & pr & Hf & ->)%aplicar_inr. unfold bordes_tabla. rewrite Hf.
  cbn [children with_children].
  rewrite (find_insert _ _ _ pr) by
    (done || (rewrite normalizar_tblPr_tag; by apply find_Some in Hf as (_ & ? & _))).
  apply bordes_previos_normalizar.
Qed.

Lemma crear_borde_attrib ancho color t :
  attrib (_crear_borde ancho color t)
  = [(qn "w:val", "single"); (qn "w:sz", pretty ancho);
     (qn "w:space", "0"); (qn "w:color", color)].
Proof. reflexivity. Qed.

End BordesTabla.

(** X1. For every table, width and colour, after border normalisation the
    border sub-block ends with the six new descriptors, in the order top,
    left, bottom, right, insideH, insideV, each with val single, the width,
    space 0 and the colour; before them come the children it had, less the
    first descriptor of each named edge. *)
Theorem bordes_nuevos_al_final ancho color (tbl tbl' : element) :
  aplicar_bordes_negros_tabla_con ancho color tbl = inr tbl' →
  bordes_tabla tbl'
  = sin_primeros nombres_bordes (bordes_tabla tbl)
      ++ (_crear_borde ancho color <$> nombres_bordes)
  ∧ Forall (λ b, attrib b = [(qn "w:val", "single"); (qn "w:sz", pretty ancho);
                             (qn "w:space", "0"); (qn "w:color", color)]
                 ∧ children b = [])
      (_crear_borde ancho color <$> nombres_bordes).
Proof.
  intros H. split.
  - rewrite (bordes_tabla_aplicar _ _ _ _ H). apply establecer_bordes_forma.
  - apply Forall_fmap, Forall_forall. intros t _. unfold compose.
    split; [exact (crear_borde_attrib ancho color t)|reflexivity].
Qed.

Lemma bordes_nuevos_al_final_witness :
  aplicar_bordes_negros_tabla_con 8 "000000" Ejemplos.tabla_repetida
  = inr Ejemplos.tabla_repetida_bordes
  ∧ bordes_tabla Ejemplos.tabla_repetida_bordes
    = sin_primeros nombres_bordes (bordes_tabla Ejemplos.tabla_repetida)
        ++ (_crear_borde 8 "000000" <$> nombres_bordes).
Proof.
  assert (H : aplicar_bordes_negros_tabla_con 8 "000000" Ejemplos.tabla_repetida
              = inr Ejemplos.tabla_repetida_bordes) by (vm_compute; reflexivity).
  exact (conj H (proj1 (bordes_nuevos_al_final _ _ _ _ H))).
Defined.

(** X2. Border normalisation keeps, in their order, the children of the
    border sub-block that are not descriptors of the six named edges. *)
Theorem otros_bordes_intactos ancho color (tbl tbl' : element) :
  aplicar_bordes_negros_tabla_con ancho color tbl = inr tbl' →
  filter (λ c, ¬ es_borde_nombrado c) (bordes_tabla tbl')
  = filter (λ c, ¬ es_borde_nombrado c) (bordes_tabla tbl).
Proof.
  intros H. rewrite (bordes_tabla_aplicar _ _ _ _ H), establecer_bordes_forma.
  rewrite filter_app.
  replace (filter _ (_crear_borde ancho color <$> nombres_bordes))
    with (@nil element) by (by vm_compute).
  rewrite app_nil_r. apply filter_sin_primeros.
  intros c Hc Hn. by apply Hn.
Qed.

Lemma otros_bordes_intactos_witness :
  aplicar_bordes_negros_tabla_con 8 "000000" Ejemplos.tabla_con_start
  = inr Ejemplos.tabla_con_start_bordes
  ∧ filter (λ c, ¬ es_borde_nombrado c)
      (bordes_tabla Ejemplos.tabla_con_start_bordes)
    = filter (λ c, ¬ es_borde_nombrado c)
        (bordes_tabla Ejemplos.tabla_con_start).
Proof.
  assert (H : aplicar_bordes_negros_tabla_con 8 "000000" Ejemplos.tabla_con_start
              = inr Ejemplos.tabla_con_start_bordes) by (vm_compute; reflexivity).
  exact (conj H (otros_bordes_intactos _ _ _ _ H)).
Defined.

(** X3. After border normalisation each named edge has as many
    descriptors in the border sub-block as it had before, and at least one:
    one descriptor is replaced, any further ones stay. *)
Theorem cuenta_por_borde ancho color (tbl tbl' : element) (t : string) :
  aplicar_bordes_negros_tabla_con ancho color tbl = inr tbl' →
  t ∈ nombres_bordes →
  length (findall (etiqueta_borde t) (bordes_tabla tbl'))
  = length (findall (etiqueta_borde t) (bordes_tabla tbl)) `max` 1.
Proof.
  intros H Ht.
  rewrite (bordes_tabla_aplicar _ _ _ _ H), establecer_bordes_forma.
  unfold findall. rewrite filter_app, length_app.
  pose proof (length_findall_sin_primeros nombres_bordes t (bordes_tabla tbl)
                NoDup_nombres_bordes Ht) as H1.
  pose proof (length_findall_crear ancho color nombres_bordes t
                NoDup_nombres_bordes Ht) as H2.
  unfold findall in H1, H2. rewrite H1, H2. lia.
Qed.

Lemma cuenta_por_borde_witness :
  aplicar_bordes_negros_tabla_con 8 "000000" Ejemplos.tabla_repetida
  = inr Ejemplos.tabla_repetida_bordes
  ∧ "top" ∈ nombres_bordes
  ∧ length (findall (etiqueta_borde "top")
              (bordes_tabla Ejemplos.tabla_repetida_bordes))
    = length (findall (etiqueta_borde "top")
                (bordes_tabla Ejemplos.tabla_repetida)) `max` 1.
Proof.
  assert (H : aplicar_bordes_negros_tabla_con 8 "000000" Ejemplos.tabla_repetida
              = inr Ejemplos.tabla_repetida_bordes) by (vm_compute; reflexivity).
  assert (Ht : "top" ∈ nombres_bordes) by (by left).
  exact (conj H (conj Ht (cuenta_por_borde _ _ _ _ _ H Ht))).
Defined.

Lemma length_filter_insert_dentro (P : element → Prop)
    `{!∀ c, Decision (P c)} (cs : list element) i c c' :
  cs !! i = Some c → P c → P c' →
  length (filter P (<[i:=c']> cs)) = length (filter P cs).
Proof.
  revert i. induction cs as [|x cs IH]; intros [|i] Hi ??; simplify_eq/=; [|].
  - by rewrite !filter_cons_True.
  - rewrite !filter_cons. case_decide; simpl; by erewrite IH.
Qed.

(** X4. Border normalisation finds or creates the border sub-block: a
    property block without one gets an empty-attribute one appended as its
    last child, a property block with one keeps it where it is, and in
    both cases the number of border sub-blocks is the one before, or one
    when there was none. *)
Theorem tblBorders_buscar_o_crear ancho color (tbl tbl' : element) :
  aplicar_bordes_negros_tabla_con ancho color tbl = inr tbl' →
  ∃ i pr pr',
    find (qn "w:tblPr") (children tbl) = Some (i, pr)
    ∧ find (qn "w:tblPr") (children tbl') = Some (i, pr')
    ∧ match find (qn "w:tblBorders") (children pr) with
      | Some (j, b) =>
          ∃ b', children pr' = <[j:=b']> (children pr)
                ∧ tag b' = qn "w:tblBorders" ∧ attrib b' = attrib b
      | None =>
          ∃ b', children pr' = children pr ++ [b']
                ∧ tag b' = qn "w:tblBorders" ∧ attrib b' = []
      end
    ∧ length (findall (qn "w:tblBorders") (children pr'))
      = length (findall (qn "w:tblBorders") (children pr)) `max` 1.
Proof.
  intros (i & pr & Hf & ->)%aplicar_inr.
  exists i, pr, (normalizar_tblPr ancho color pr).
  split; [done|]. split.
  { cbn [children with_children]. apply find_insert with pr; [done|].
    rewrite normalizar_tblPr_tag. by apply find_Some in Hf as (_ & ? & _). }
  unfold normalizar_tblPr.
  destruct (find _ (children pr)) as [[j b]|] eqn:Hb;
    cbn [children with_children].
  - apply find_Some in Hb as (Hj & Hb & _). split.
    + eexists. split_and!; [reflexivity|exact Hb|reflexivity].
    + assert (Hin : b ∈ findall (qn "w:tblBorders") (children pr)).
      { apply list_elem_of_filter. split; [done|].
        by eapply list_elem_of_lookup_2. }
      assert (0 < length (findall (qn "w:tblBorders") (children pr))).
      { destruct (findall _ (children pr)); [by apply elem_of_nil in Hin|].
        simpl. lia. }
      unfold findall in *.
      rewrite (length_filter_insert_dentro _ _ _ b) by done. lia.
  - split.
    + eexists. rewrite insert_append. split_and!; reflexivity.
    + rewrite insert_append. unfold append, findall.
      rewrite filter_app, length_app.
      pose proof (find_None _ _ Hb) as Hn. unfold findall in Hn.
      rewrite Hn. by rewrite filter_cons_True.
Qed.

Lemma tblBorders_buscar_o_crear_witness :
  aplicar_bordes_negros_tabla_con 8 "000000" Ejemplos.tabla
  = inr Ejemplos.tabla_bordes
  ∧ ∃ i pr pr',
    find (qn "w:tblPr") (children Ejemplos.tabla) = Some (i, pr)
    ∧ find (qn "w:tblPr") (children Ejemplos.tabla_bordes) = Some (i, pr')
    ∧ match find (qn "w:tblBorders") (children pr) with
      | Some (j, b) =>
          ∃ b', children pr' = <[j:=b']> (children pr)
                ∧ tag b' = qn "w:tblBorders" ∧ attrib b' = attrib b
      | None =>
          ∃ b', children pr' = children pr ++ [b']
                ∧ tag b' = qn "w:tblBorders" ∧ attrib b' = []
      end
    ∧ length (findall (qn "w:tblBorders") (children pr'))
      = length (findall (qn "w:tblBorders") (children pr)) `max` 1.
Proof.
  assert (H : aplicar_bordes_negros_tabla_con 8 "000000" Ejemplos.tabla
              = inr Ejemplos.tabla_bordes) by (vm_compute; reflexivity).
  exact (conj H (tblBorders_buscar_o_crear _ _ _ _ H)).
Defined.

(** ** The two mutations together *)

(** X5. The two mutations of a table commute: suppressing the header
    flags first and normalising the borders afterwards gives what the
    program's order gives, the same table or the same exception. *)
Theorem mutaciones_conmutan ancho color (tbl : element) :
  aplicar_bordes_negros_tabla_con ancho color
    (eliminar_repeticion_fila_encabezado tbl)
  = (tbl1 ← aplicar_bordes_negros_tabla_con ancho color tbl ;;;
     ret (eliminar_repeticion_fila_encabezado tbl1)).
Proof.
  unfold aplicar_bordes_negros_tabla_con, tblPr.
  rewrite find_tblPr_eliminar.
  destruct (find _ (children tbl)) as [[i pr]|] eqn:Hf; [|done].
  apply find_Some in Hf as (_ & Ht & _).
  simpl. unfold ret. f_equal.
  unfold eliminar_repeticion_fila_encabezado, with_children; simpl. f_equal.
  rewrite list_fmap_insert. f_equal.
  unfold paso_fila. rewrite decide_False; [done|].
  rewrite normalizar_tblPr_tag, Ht. tags_distintos.
Qed.

(** ** Header-repeat suppression on its own *)

Section Supresion.

Implicit Types (c tr tbl : element).




End Supresion.

(** X6. Header-repeat suppression is idempotent on every table: run on
    its own result it changes nothing. *)
Theorem eliminar_dos_veces (tbl : element) :
  eliminar_repeticion_fila_encabezado
    (eliminar_repeticion_fila_encabezado tbl)
  = eliminar_repeticion_fila_encabezado tbl.
Proof. apply eliminar_idem. Qed.


(** ** The document processor on any input *)

Section ProcesadorGeneral.

Variable load : list byte → result Document.
Variable save : Document → list byte.

Lemma procesar_docx_inr_inv (s s1 : BytesIO) :
  procesar_docx load save s = inr s1 →
  ∃ doc doc', load (getvalue s) = inr doc ∧ transformar doc = inr doc'
    ∧ s1 = {| getvalue := save doc'; tell := 0 |}.
Proof.
  intros H.
  destruct (load (getvalue s)) as [e|doc] eqn:Hl;
    [by rewrite (procesar_docx_load_inl load save s e Hl) in H|].
  destruct (transformar doc) as [e|doc'] eqn:Ht;
    [by rewrite (procesar_docx_transformar_inl load save s doc e Hl Ht) in H|].
  rewrite (procesar_docx_inr load save s doc doc' Hl Ht) in H.
  injection H as <-. eauto.
Qed.

Lemma procesar_tablas_inl (hijos : list element) e :
  procesar_tablas hijos = inl e →
  e = InvalidXmlError "required ``<w:tblPr>`` child element not present"
  ∧ Exists (λ t, find (qn "w:tblPr") (children t) = None)
      (findall (qn "w:tbl") hijos).
Proof.
  unfold findall. induction hijos as [|c hijos IH]; [done|].
  simpl. rewrite filter_cons. case_decide as Hc.
  - destruct (procesar_tabla c) as [e'|c'] eqn:Hp; simpl.
    + intros [= <-]. unfold procesar_tabla, aplicar_bordes_negros_tabla,
        aplicar_bordes_negros_tabla_con, tblPr in Hp.
      destruct (find _ (children c)) as [[i pr]|] eqn:Hf; [done|].
      injection Hp as <-. split; [done|]. by left.
    + destruct (procesar_tablas hijos) as [e'|hs]; [|done]. simpl.
      intros [= <-]. destruct (IH eq_refl) as [-> Hex]. split; [done|].
      by right.
  - simpl. destruct (procesar_tablas hijos) as [e'|hs]; [|done]. simpl.
    intros [= <-]. by apply IH.
Qed.

(** X8. With a container that reads back what it wrote, on a document
    whose tables of the body repeat no named edge, the processor run on
    its own output returns: the output of the second run parses to the
    same document as the output of the first. *)
Theorem dos_pasadas_mismo_documento (s s1 : BytesIO) (doc : Document)
    (ts : list element) :
  (∀ d, load (save d) = inr d) →
  load (getvalue s) = inr doc →
  tables doc = inr ts →
  Forall tabla_sin_repetidos ts →
  procesar_docx load save s = inr s1 →
  ∃ doc' s2, load (getvalue s1) = inr doc'
    ∧ procesar_docx load save s1 = inr s2
    ∧ load (getvalue s2) = inr doc'.
Proof.
  intros Hrt Hl Hts Hn (doc0 & doc' & Hl0 & Ht & ->)%procesar_docx_inr_inv.
  assert (doc0 = doc) as -> by congruence.
  exists doc', {| getvalue := save doc'; tell := 0 |}.
  split_and!; [apply Hrt| |apply Hrt].
  apply (procesar_docx_inr load save _ doc' doc'); [apply Hrt|].
  by eapply transformar_idem.
Qed.

End ProcesadorGeneral.

(** X10. The transform succeeds exactly on the documents that have a body
    all of whose tables have a property block.  When it raises, either the
    body is missing, or some table of the body has no property block and
    the exception is the one of the missing child. *)
Theorem transformar_exito (doc : Document) :
  ((∃ doc', transformar doc = inr doc')
   ↔ ∃ ts, tables doc = inr ts
       ∧ Forall (λ t, is_Some (find (qn "w:tblPr") (children t))) ts)
  ∧ ∀ e, transformar doc = inl e →
      (find (qn "w:body") (children doc) = None
       ∧ e = AttributeError "'NoneType' object has no attribute 'tbl_lst'")
      ∨ (∃ ts, tables doc = inr ts
          ∧ Exists (λ t, find (qn "w:tblPr") (children t) = None) ts
          ∧ e = InvalidXmlError
                  "required ``<w:tblPr>`` child element not present").
Proof.
  split; [split|].
  - intros [doc' Ht].
    destruct (tables_transformar _ _ Ht) as (ts & ts' & Hts & _ & Hall).
    exists ts. split; [done|].
    clear -Hall. induction Hall as [|t t' l l' Hp _ IH]; constructor; [|done].
    apply procesar_tabla_inr in Hp as (t1 & (i & pr & Hf & _)%aplicar_inr & _).
    by rewrite Hf.
  - intros (ts & Hts & Hpr). unfold tables, body in Hts.
    destruct (find _ (children doc)) as [[i b]|] eqn:Hb; [|done].
    simpl in Hts. injection Hts as <-.
    destruct (procesar_tablas_con_tblPr _ Hpr) as [hs Hhs].
    eexists. apply transformar_inr. eauto 6.
  - intros e. unfold transformar, tables, body.
    destruct (find _ (children doc)) as [[i b]|] eqn:Hb; simpl.
    + destruct (procesar_tablas (children b)) as [e'|hs] eqn:Hhs; [|done].
      simpl. intros [= <-]. right.
      apply procesar_tablas_inl in Hhs as [-> Hex]. eauto.
    + intros [= <-]. by left.
Qed.

Section TestigosDocumento.

Import Ejemplos.

Lemma tabla_con_start_sin_repetidos :
  Forall tabla_sin_repetidos [tabla_con_start].
Proof.
  apply Forall_cons_2; [|apply Forall_nil_2].
  intros i pr Hf. vm_compute in Hf. injection Hf as <- <-.
  intros t Ht. revert t Ht. apply Forall_forall.
  apply (bool_decide_unpack _). by vm_compute.
Qed.

Lemma transformar_documento_con_start :
  transformar documento_con_start = inr documento_con_start_procesado.
Proof. by vm_compute. Qed.

Lemma tables_documento_con_start :
  tables documento_con_start = inr [tabla_con_start].
Proof. by vm_compute. Qed.


End TestigosDocumento.

Lemma dos_pasadas_mismo_documento_witness :
  let s := BytesIO_de (Zip.save Ejemplos.documento_con_start) in
  let s1 := {| getvalue := Zip.save Ejemplos.documento_con_start_procesado;
               tell := 0 |} in
  Zip.load (getvalue s) = inr Ejemplos.documento_con_start
  ∧ tables Ejemplos.documento_con_start = inr [Ejemplos.tabla_con_start]
  ∧ procesar_docx Zip.load Zip.save s = inr s1
  ∧ ∃ doc' s2, Zip.load (getvalue s1) = inr doc'
      ∧ procesar_docx Zip.load Zip.save s1 = inr s2
      ∧ Zip.load (getvalue s2) = inr doc'.
Proof.
  intros s s1.
  assert (H1 : Zip.load (getvalue s) = inr Ejemplos.documento_con_start)
    by apply Zip.load_save.
  assert (H2 : procesar_docx Zip.load Zip.save s = inr s1)
    by apply (procesar_docx_inr Zip.load Zip.save s _ _ H1
                transformar_documento_con_start).
  exact (conj H1 (conj tables_documento_con_start (conj H2
    (dos_pasadas_mismo_documento Zip.load Zip.save s s1 _ _ Zip.load_save H1
       tables_documento_con_start tabla_con_start_sin_repetidos H2)))).
Defined.


(** ** The handler on any request *)

Section ServicioGeneral.

Variable load : list byte → result Document.
Variable save : Document → list byte.

(** X11. The handler answers 400 exactly when [request.files] has no
    entry named file and [request.get_data(cache=False)], called after
    that, returns no bytes. *)
Theorem estado_400 (request : Request) :
  status_code (process load save request) = 400
  ↔ files_get "file" request = None ∧ get_data request = [].
Proof.
  rewrite process_entrada. unfold bytes_entrada.
  destruct (files_get "file" request) as [f|].
  - destruct (procesar_docx _ _ _); simpl; split; (done || by intros []).
  - destruct (get_data request) as [|b bs]; [done|].
    destruct (procesar_docx _ _ _); simpl; split; (done || by intros []).
Qed.

(** X14. With a container that reads back what it wrote, the body of a
    file response is a buffer at position 0 whose bytes parse to the
    transform of the document the request carried. *)
Theorem respuesta_es_el_documento (request : Request) (bs : list byte)
    (doc : Document) cuerpo adjunto nombre mt :
  (∀ d, load (save d) = inr d) →
  bytes_entrada request = Some bs →
  load bs = inr doc →
  process load save request = send_file cuerpo adjunto nombre mt →
  tell cuerpo = 0
  ∧ ∃ doc', transformar doc = inr doc' ∧ load (getvalue cuerpo) = inr doc'.
Proof.
  intros Hrt Hbs Hl. rewrite process_entrada, Hbs.
  destruct (procesar_docx _ _ _) as [e|salida] eqn:Hp; [done|].
  intros [= <- _ _ _].
  apply procesar_docx_inr_inv in Hp as (doc0 & doc' & Hl0 & Ht & ->).
  simpl in Hl0. assert (doc0 = doc) as -> by congruence.
  split; [done|]. exists doc'. split; [done|]. apply Hrt.
Qed.

End ServicioGeneral.

Lemma respuesta_es_el_documento_witness :
  bytes_entrada Ejemplos.peticion_archivo
  = Some (Zip.save Ejemplos.documento)
  ∧ Zip.load (Zip.save Ejemplos.documento) = inr Ejemplos.documento
  ∧ process Zip.load Zip.save Ejemplos.peticion_archivo
    = send_file
        {| getvalue := Zip.save Ejemplos.documento_procesado; tell := 0 |}
        true "informe.v2_procesado.docx" mimetype_docx
  ∧ ∃ doc', transformar Ejemplos.documento = inr doc'
      ∧ Zip.load (Zip.save Ejemplos.documento_procesado) = inr doc'.
Proof.
  exact (conj eq_refl (conj (Zip.load_save _) (conj process_peticion_archivo
    (proj2 (respuesta_es_el_documento Zip.load Zip.save
              Ejemplos.peticion_archivo _ _ _ _ _ _ Zip.load_save eq_refl
              (Zip.load_save _) process_peticion_archivo))))).
Defined.

(** ** The download name *)

Section NombresGeneral.

Lemma rsplit1_union (c : ascii) (base ext : string) :
  contiene c ext = false →
  contiene c (base +:+ String c ext) = true
  ∧ rsplit1 c (base +:+ String c ext) = [base; ext].
Proof.
  intros Hext. induction base as [|a base [IH1 IH2]]; simpl.
  - rewrite decide_True by done. rewrite rsplit1_sin by done.
    by rewrite decide_True.
  - rewrite IH1, IH2. by case_decide.
Qed.

Lemma append_cancel_l (s a b : string) : s +:+ a = s +:+ b → a = b.
Proof. induction s as [|x s IH]; simpl; [done|]. intros [= H]. auto. Qed.

Lemma append_assoc (a b c : string) : (a +:+ b) +:+ c = a +:+ (b +:+ c).
Proof.
  induction a as [|x a IH]; [done|].
  change (String x ((a +:+ b) +:+ c) = String x (a +:+ (b +:+ c))).
  by f_equal.
Qed.

End NombresGeneral.

(** X15. A name made of any base, a dot and an extension without dot gets
    the download name base_procesado.docx: only the last extension is cut,
    and a name that begins with its only dot leaves an empty base. *)
Theorem nombre_salida_union (base ext : string) :
  contiene "." ext = false →
  nombre_salida (base +:+ "." +:+ ext) = base +:+ "_procesado.docx".
Proof.
  intros Hext. unfold nombre_salida.
  change (base +:+ "." +:+ ext) with (base +:+ String "." ext).
  destruct (rsplit1_union "." base ext Hext) as [-> ->]. done.
Qed.

Lemma nombre_salida_union_witness :
  contiene "." "docx" = false
  ∧ nombre_salida (EmptyString +:+ "." +:+ "docx")
    = EmptyString +:+ "_procesado.docx".
Proof.
  exact (conj eq_refl (nombre_salida_union EmptyString "docx" eq_refl)).
Defined.

(** X16. The download name of a download name carries the suffix twice:
    naming is not idempotent, a file sent through the service again gets a
    new name. *)
Theorem nombre_salida_dos_veces (fn : string) :
  ∃ base, nombre_salida fn = base +:+ "_procesado.docx"
    ∧ nombre_salida (nombre_salida fn) = base +:+ "_procesado_procesado.docx"
    ∧ nombre_salida (nombre_salida fn) ≠ nombre_salida fn.
Proof.
  destruct (nombre_salida_base fn) as (base & Hb & _).
  exists base. split; [done|].
  assert (H2 : nombre_salida (nombre_salida fn)
               = base +:+ "_procesado_procesado.docx").
  { rewrite Hb.
    change (base +:+ "_procesado.docx")
      with (base +:+ ("_procesado" +:+ String "." "docx")).
    rewrite <- append_assoc.
    unfold nombre_salida.
    destruct (rsplit1_union "." (base +:+ "_procesado") "docx" eq_refl)
      as [-> ->].
    simpl. by rewrite append_assoc. }
  split; [done|]. rewrite H2, Hb. intros H%append_cancel_l. discriminate H.
Qed.

(** ** Tables inside cells, documents without body *)

(** C2, at a table inside a cell.  The loop runs over [doc.tables], the
    tables of the body.  The sample document has a table in a cell of its
    one body table, with a flagged row.  After the transform that inner
    table is among the tables of the document as it went in: its row still
    has the header flag in its property block. *)
Theorem C2_tabla_anidada_conserva_marca :
  transformar Ejemplos.documento_anidado
  = inr Ejemplos.documento_anidado_procesado
  ∧ todas_las_tablas Ejemplos.documento_anidado_procesado
    = [Ejemplos.tabla_exterior_procesada; Ejemplos.tabla_interior]
  ∧ rows Ejemplos.tabla_interior = [Ejemplos.fila_marcada]
  ∧ trPr Ejemplos.fila_marcada
    = Some (0, Ejemplos.el "w:trPr"
                 [Ejemplos.el "w:cantSplit" []; Ejemplos.marca])
  ∧ tag Ejemplos.marca = qn "w:tblHeader".
Proof. split_and!; by vm_compute. Qed.

(** C3, at a table inside a cell and at a document without body.  On the
    container of the sample document with the table in a cell the
    processor returns the container of a document whose inner table is the
    one of the input: it has no border descriptor and the body of the loop
    would have changed it.  On the container of a document without body,
    which has no table at all, the processor raises. *)
Theorem C3_tabla_anidada_sin_procesar :
  procesar_docx Zip.load Zip.save
    (BytesIO_de (Zip.save Ejemplos.documento_anidado))
  = inr {| getvalue := Zip.save Ejemplos.documento_anidado_procesado;
           tell := 0 |}
  ∧ todas_las_tablas Ejemplos.documento_anidado
    = [Ejemplos.el "w:tbl"
         [Ejemplos.el "w:tblPr" [];
          Ejemplos.el "w:tr" [Ejemplos.celda_con_tabla]];
       Ejemplos.tabla_interior]
  ∧ todas_las_tablas Ejemplos.documento_anidado_procesado
    = [Ejemplos.tabla_exterior_procesada; Ejemplos.tabla_interior]
  ∧ descriptores Ejemplos.tabla_interior = []
  ∧ procesar_tabla Ejemplos.tabla_interior
    = inr Ejemplos.tabla_interior_procesada
  ∧ Ejemplos.tabla_interior_procesada ≠ Ejemplos.tabla_interior
  ∧ todas_las_tablas Ejemplos.documento_sin_body = []
  ∧ procesar_docx Zip.load Zip.save
      (BytesIO_de (Zip.save Ejemplos.documento_sin_body))
    = inl (AttributeError "'NoneType' object has no attribute 'tbl_lst'").
Proof.
  split_and!.
  - apply (procesar_docx_inr Zip.load Zip.save
             (BytesIO_de (Zip.save Ejemplos.documento_anidado))
             Ejemplos.documento_anidado _ (Zip.load_save _)).
    by vm_compute.
  - by vm_compute.
  - by vm_compute.
  - by vm_compute.
  - by vm_compute.
  - intros H. vm_compute in H. discriminate H.
  - by vm_compute.
  - apply (procesar_docx_transformar_inl Zip.load Zip.save
             (BytesIO_de (Zip.save Ejemplos.documento_sin_body))
             Ejemplos.documento_sin_body _ (Zip.load_save _)).
    by vm_compute.
Qed.
